(** * pretrain_IJEPA: dataset loading, momentum schedule and Lightning hooks

    A shallow embedding of [src/pretrain_IJEPA.py].

    Conventions of the embedding.
    - Python [int] is [Z]. Python [float] and tensor elements are
      modelled twice. The exact reading takes them as rationals [Q]
      compared with [==]: it gives the formulas the code computes, with
      no rounding and no special values. The machine reading runs the
      same lines on IEEE 754 numbers: the scalar [m] in binary64 in
      [Binary64], the tensors in any binary format, with signed zeros,
      infinities and NaN, in [IEEE]. A property of the numbers the
      program holds is stated on the machine reading.
    - A tensor is the flat list of its elements; two tensors have the
      same shape when the lists have the same length.
    - A raised Python exception is the [Raise] branch of [result].
    - Mutable objects ([self], [self.model], the numpy generator) are
      passed in and returned explicitly.
    - What the file imports from elsewhere (PIL, torchvision, numpy's
      generator, the network of [model.py], the loss, the optimizer) is a
      [Variable] of the section that uses it. *)

From Stdlib Require Import ZArith QArith Qabs List String Ascii Bool Lia Lqa.
From Stdlib Require Import PrimFloat SpecFloat.
Import ListNotations.

Set Implicit Arguments.
Set Warnings "-register-all,-inexact-float".

(** ** Python exceptions *)

Inductive exn : Type :=
| ZeroDivisionError
| RuntimeError
| ValueError
| IndexError
| UnidentifiedImageError.

Inductive result (A : Type) : Type :=
| Ok (a : A)
| Raise (e : exn).

Arguments Ok {A} a.
Arguments Raise {A} e.

Definition bind {A B : Type} (r : result A) (k : A -> result B) : result B :=
  match r with
  | Ok a => k a
  | Raise e => Raise e
  end.

Declare Scope py_scope.
Delimit Scope py_scope with py.
Notation "x <- r ;; k" := (bind r (fun x => k))
  (at level 61, r at next level, right associativity) : py_scope.
Notation "' p <- r ;; k" := (bind r (fun p => k))
  (at level 61, p pattern, r at next level, right associativity) : py_scope.

Fixpoint mapM {A B : Type} (f : A -> result B) (l : list A) : result (list B) :=
  match l with
  | [] => Ok []
  | x :: xs =>
      bind (f x) (fun y => bind (mapM f xs) (fun ys => Ok (y :: ys)))
  end.

(** ** Strings: [str.lower], [str.endswith], [os.path.join] *)

Module Str.
Local Open Scope string_scope.

Definition is_upper (c : ascii) : bool :=
  let n := nat_of_ascii c in (65 <=? n)%nat && (n <=? 90)%nat.

(** Letters A-Z go to a-z, every other byte stays. *)
Definition lower_ascii (c : ascii) : ascii :=
  if is_upper c then ascii_of_nat (nat_of_ascii c + 32) else c.

Fixpoint lower (s : string) : string :=
  match s with
  | EmptyString => EmptyString
  | String c s' => String (lower_ascii c) (lower s')
  end.

(** [s.endswith(suffix)]: some tail of [s] is [suffix]. *)
Fixpoint endswith (s suffix : string) : bool :=
  String.eqb s suffix ||
  match s with
  | EmptyString => false
  | String _ s' => endswith s' suffix
  end.

Definition startswith (s p : string) : bool := String.prefix p s.

(** [posixpath.join(a, b)] for two components. *)
Definition join (a b : string) : string :=
  if startswith b "/" then b
  else if (String.eqb a "" || endswith a "/") then a ++ b
  else a ++ "/" ++ b.

End Str.

(** ** The directory tree under a path, as [os.walk] sees it *)

Section Corpus.

(** What a file holds, and what PIL and torchvision make of it. *)
Variable FileData : Type.
Variable Picture : Type.
Variable Sample : Type.

(** [Image.open(path).convert('RGB')] on a file with this content. *)
Variable Image_open_convert : FileData -> result Picture.

(** [transforms.Compose([Resize(img_size), ToTensor()])]. *)
Variable transform : Z * Z -> Picture -> Sample.

Inductive node : Type :=
| File (name : string) (content : FileData)
| Dir (name : string) (entries : list node).

Definition dirnames (entries : list node) : list string :=
  flat_map (fun n => match n with Dir d _ => [d] | File _ _ => [] end) entries.

Definition filenames (entries : list node) : list (string * FileData) :=
  flat_map (fun n => match n with File f c => [(f, c)] | Dir _ _ => [] end) entries.

(** One triple [(root, dirs, files)] of [os.walk]; a file name comes with
    the content found at [join root name]. *)
Definition walk_item : Type := string * list string * list (string * FileData).

(** The part of [os.walk] below one entry of [top]: nothing for a file,
    and for a directory [d] the walk of [join top d]. *)
Fixpoint walk_node (top : string) (n : node) : list walk_item :=
  match n with
  | File _ _ => []
  | Dir d es =>
      let new_path := Str.join top d in
      (new_path, dirnames es, filenames es) :: flat_map (walk_node new_path) es
  end.

(** [os.walk(top)], top-down, once [top] is known to be a directory with
    these entries: first the directory itself, then each subdirectory in
    turn under [join top name]. *)
Definition walk_dir (top : string) (entries : list node) : list walk_item :=
  (top, dirnames entries, filenames entries) :: flat_map (walk_node top) entries.

(** [os.walk(path)]: a path that is not a readable directory yields
    nothing (scandir errors are ignored when [onerror] is not given). *)
Definition os_walk (path : string) (at_path : option (list node)) : list walk_item :=
  match at_path with
  | Some entries => walk_dir path entries
  | None => []
  end.

(** *** IJEPADataset *)

Record IJEPADataset : Type := {
  dataset_path : string;
  img_size : Z * Z;
  data : list Sample
}.

Definition is_jpeg (file : string) : bool :=
  Str.endswith (Str.lower file) ".jpeg".

(** What one triple of the walk adds to [image_files]: the inner loop of
    lines 38-40. *)
Definition item_files (it : walk_item) : list (string * FileData) :=
  let '(root, _, files) := it in
  map (fun fc => (Str.join root (fst fc), snd fc))
      (filter (fun fc => is_jpeg (fst fc)) files).

(** Lines 36-40 of [load_images]: the list [image_files]. *)
Definition image_files (path : string) (at_path : option (list node))
  : list (string * FileData) :=
  flat_map item_files (os_walk path at_path).

(** Lines 41-47 of [load_images]. *)
Definition load_images (path : string) (size : Z * Z)
  (at_path : option (list node)) : result (list Sample) :=
  mapM (fun pc => bind (Image_open_convert (snd pc))
                       (fun img => Ok (transform size img)))
       (image_files path at_path).

(** [IJEPADataset.__init__]; [stage] is accepted and not used. *)
Definition IJEPADataset_init (path : string) (stage : string) (size : Z * Z)
  (at_path : option (list node)) : result IJEPADataset :=
  bind (load_images path size at_path)
       (fun images =>
          Ok {| dataset_path := path; img_size := size; data := images |}).

Definition IJEPADataset_len (self : IJEPADataset) : Z :=
  Z.of_nat (List.length (data self)).

(** [self.data[index]], with Python's negative indices. *)
Definition IJEPADataset_getitem (self : IJEPADataset) (index : Z)
  : result Sample :=
  let n := IJEPADataset_len self in
  let i := if (index <? 0)%Z then (index + n)%Z else index in
  if (i <? 0)%Z then Raise IndexError
  else match nth_error (data self) (Z.to_nat i) with
       | Some x => Ok x
       | None => Raise IndexError
       end.

(** *** D2VDataModule *)

Record D2VDataModule : Type := {
  train_dataset_path : string;
  val_dataset_path : string;
  batch_size : Z;
  num_workers : Z;
  shuffle : bool;
  train_dataset : option IJEPADataset;
  val_dataset : option IJEPADataset
}.

(** [D2VDataModule.__init__]; [pin_memory] is accepted and not kept. The
    defaults are 16, 4, True, True. *)
Definition D2VDataModule_init (train_path val_path : string)
  (batch_size0 num_workers0 : Z) (pin_memory shuffle0 : bool) : D2VDataModule :=
  {| train_dataset_path := train_path;
     val_dataset_path := val_path;
     batch_size := batch_size0;
     num_workers := num_workers0;
     shuffle := shuffle0;
     train_dataset := None;
     val_dataset := None |}.

(** [setup]: both datasets are built, with the default [img_size]. The
    file system answers for a path with the directory it names, if any. *)
Definition setup (self : D2VDataModule) (fs : string -> option (list node))
  : result D2VDataModule :=
  bind (IJEPADataset_init (train_dataset_path self) "train" (224, 224)%Z
          (fs (train_dataset_path self)))
    (fun tr =>
  bind (IJEPADataset_init (val_dataset_path self) "val" (224, 224)%Z
          (fs (val_dataset_path self)))
    (fun va =>
  Ok {| train_dataset_path := train_dataset_path self;
        val_dataset_path := val_dataset_path self;
        batch_size := batch_size self;
        num_workers := num_workers self;
        shuffle := shuffle self;
        train_dataset := Some tr;
        val_dataset := Some va |})).

(** The files of a tree, by position: [file_under top entries p name c]
    when a file called [name] with content [c] sits at path [p], at any
    depth below the directory [top] whose entries are [entries]. *)
Inductive file_under : string -> list node -> string -> string -> FileData -> Prop :=
| file_here : forall top entries name c,
    In (File name c) entries ->
    file_under top entries (Str.join top name) name c
| file_below : forall top entries d es p name c,
    In (Dir d es) entries ->
    file_under (Str.join top d) es p name c ->
    file_under top entries p name c.

(** How many files at or below a node have a matching name. *)
Fixpoint jpeg_count (n : node) : nat :=
  match n with
  | File f _ => if is_jpeg f then 1%nat else 0%nat
  | Dir _ es => list_sum (map jpeg_count es)
  end.

(** How many files with a matching name the directory at a path holds,
    at any depth; none when the path is no directory. *)
Definition matching_files (at_path : option (list node)) : nat :=
  match at_path with
  | Some entries => list_sum (map jpeg_count entries)
  | None => 0%nat
  end.

End Corpus.

Arguments item_files {FileData} it.

(** ** Tensors and encoders *)

(** A tensor in the exact reading: the flat list of its elements as
    rationals. It has no rounding, no infinity and no NaN; the tensors
    with these are [IEEE.Tensor]. *)
Definition Tensor : Type := list Q.

(** [self.mul_(other)] with a scalar: every element times [other]. *)
Definition mul_ (self : Tensor) (other : Q) : Tensor :=
  map (fun x => x * other) self.

(** [self.add_(other, alpha=alpha)]: element-wise [self + alpha * other];
    tensors of different shapes are refused. *)
Fixpoint add_ (self other : Tensor) (alpha : Q) : result Tensor :=
  match self, other with
  | [], [] => Ok []
  | x :: xs, y :: ys =>
      bind (add_ xs ys alpha) (fun r => Ok (x + alpha * y :: r))
  | _, _ => Raise RuntimeError
  end.

(** An encoder as this file uses it: its parameter tensors, in the order
    of [parameters()], and the train/eval flag. *)
Record Encoder : Type := {
  parameters : list Tensor;
  training : bool
}.

(** [encoder.eval()] returns the encoder itself, switched to eval mode. *)
Definition eval (e : Encoder) : Encoder :=
  {| parameters := parameters e; training := false |}.

Definition set_parameters (e : Encoder) (ps : list Tensor) : Encoder :=
  {| parameters := ps; training := training e |}.

(** The attributes of [IJEPA_base] that this file reads or writes. *)
Record IJEPA_base : Type := {
  student_encoder : Encoder;
  teacher_encoder : Encoder;
  mode : string
}.

(** [self.trainer], once the module is attached to one. *)
Record Trainer : Type := {
  estimated_stepping_batches : Z
}.

(** The keyword arguments of [IJEPA.__init__]. *)
Module Hparams.
Record t : Type := {
  img_size : Z;
  patch_size : Z;
  in_chans : Z;
  embed_dim : Z;
  enc_heads : Z;
  enc_depth : Z;
  decoder_depth : Z;
  lr : Q;
  weight_decay : Q;
  target_aspect_ratio : Q * Q;
  target_scale : Q * Q;
  context_aspect_ratio : Q;
  context_scale : Q * Q;
  M : Z;
  m : Q;
  m_start_end : Q * Q
}.

(** The defaults of the signature. *)
Definition default : t :=
  {| img_size := 224;
     patch_size := 16;
     in_chans := 3;
     embed_dim := 64;
     enc_heads := 8;
     enc_depth := 8;
     decoder_depth := 6;
     lr := 1 # 1000000;
     weight_decay := 5 # 100;
     target_aspect_ratio := (75 # 100, 15 # 10);
     target_scale := (15 # 100, 2 # 10);
     context_aspect_ratio := 1;
     context_scale := (85 # 100, 1);
     M := 4;
     m := 996 # 1000;
     m_start_end := (996 # 1000, 1) |}.
End Hparams.

(** The attributes of the LightningModule [IJEPA]. [logged] collects the
    calls of [self.log], oldest first. *)
Module IJEPA.
Record t : Type := {
  model : IJEPA_base;
  M : Z;
  lr : Q;
  weight_decay : Q;
  m : Q;
  target_aspect_ratio : Q * Q;
  target_scale : Q * Q;
  context_aspect_ratio : Q;
  context_scale : Q * Q;
  embed_dim : Z;
  patch_size : Z;
  num_tokens : Z;
  m_start_end : Q * Q;
  trainer : option Trainer;
  logged : list (string * Q)
}.

Definition set_model (self : t) (net : IJEPA_base) : t :=
  {| model := net; M := M self; lr := lr self;
     weight_decay := weight_decay self; m := m self;
     target_aspect_ratio := target_aspect_ratio self;
     target_scale := target_scale self;
     context_aspect_ratio := context_aspect_ratio self;
     context_scale := context_scale self;
     embed_dim := embed_dim self; patch_size := patch_size self;
     num_tokens := num_tokens self; m_start_end := m_start_end self;
     trainer := trainer self; logged := logged self |}.

Definition set_m (self : t) (v : Q) : t :=
  {| model := model self; M := M self; lr := lr self;
     weight_decay := weight_decay self; m := v;
     target_aspect_ratio := target_aspect_ratio self;
     target_scale := target_scale self;
     context_aspect_ratio := context_aspect_ratio self;
     context_scale := context_scale self;
     embed_dim := embed_dim self; patch_size := patch_size self;
     num_tokens := num_tokens self; m_start_end := m_start_end self;
     trainer := trainer self; logged := logged self |}.

Definition set_trainer (self : t) (tr : option Trainer) : t :=
  {| model := model self; M := M self; lr := lr self;
     weight_decay := weight_decay self; m := m self;
     target_aspect_ratio := target_aspect_ratio self;
     target_scale := target_scale self;
     context_aspect_ratio := context_aspect_ratio self;
     context_scale := context_scale self;
     embed_dim := embed_dim self; patch_size := patch_size self;
     num_tokens := num_tokens self; m_start_end := m_start_end self;
     trainer := tr; logged := logged self |}.

Definition set_context_scale (self : t) (v : Q * Q) : t :=
  {| model := model self; M := M self; lr := lr self;
     weight_decay := weight_decay self; m := m self;
     target_aspect_ratio := target_aspect_ratio self;
     target_scale := target_scale self;
     context_aspect_ratio := context_aspect_ratio self;
     context_scale := v;
     embed_dim := embed_dim self; patch_size := patch_size self;
     num_tokens := num_tokens self; m_start_end := m_start_end self;
     trainer := trainer self; logged := logged self |}.

(** [self.log(name, value)]. *)
Definition log (self : t) (name : string) (value : Q) : t :=
  {| model := model self; M := M self; lr := lr self;
     weight_decay := weight_decay self; m := m self;
     target_aspect_ratio := target_aspect_ratio self;
     target_scale := target_scale self;
     context_aspect_ratio := context_aspect_ratio self;
     context_scale := context_scale self;
     embed_dim := embed_dim self; patch_size := patch_size self;
     num_tokens := num_tokens self; m_start_end := m_start_end self;
     trainer := trainer self; logged := logged self ++ [(name, value)] |}.
End IJEPA.

(** Python's [a // b] on integers: floor division, as [Z.div], and an
    exception for a zero divisor. *)
Definition floordiv (a b : Z) : result Z :=
  if (b =? 0)%Z then Raise ZeroDivisionError else Ok (a / b)%Z.

(** Python's [a / b] with a float numerator and an integer divisor, in
    the exact reading: the quotient is not rounded. The rounded quotient
    of line 191 is in [Binary64.next_m]. *)
Definition truediv (a : Q) (b : Z) : result Q :=
  if (b =? 0)%Z then Raise ZeroDivisionError else Ok (a / inject_Z b).

(** ** IJEPA.__init__ *)

Section Construction.

(** [IJEPA_base(img_size=, patch_size=, in_chans=, embed_dim=, enc_depth=,
    num_heads=, pred_depth=, M=)] of [model.py]. *)
Variable IJEPA_base_new : Z -> Z -> Z -> Z -> Z -> Z -> Z -> Z -> result IJEPA_base.

Definition IJEPA_init (hp : Hparams.t) : result IJEPA.t :=
  bind (IJEPA_base_new (Hparams.img_size hp) (Hparams.patch_size hp)
          (Hparams.in_chans hp) (Hparams.embed_dim hp) (Hparams.enc_depth hp)
          (Hparams.enc_heads hp) (Hparams.decoder_depth hp) (Hparams.M hp))
    (fun net =>
  bind (floordiv (Hparams.img_size hp) (Hparams.patch_size hp))
    (fun grid =>
  Ok {| IJEPA.model := net;
        IJEPA.M := Hparams.M hp;
        IJEPA.lr := Hparams.lr hp;
        IJEPA.weight_decay := Hparams.weight_decay hp;
        IJEPA.m := Hparams.m hp;
        IJEPA.target_aspect_ratio := Hparams.target_aspect_ratio hp;
        IJEPA.target_scale := Hparams.target_scale hp;
        IJEPA.context_aspect_ratio := Hparams.context_aspect_ratio hp;
        IJEPA.context_scale := Hparams.context_scale hp;
        IJEPA.embed_dim := Hparams.embed_dim hp;
        IJEPA.patch_size := Hparams.patch_size hp;
        IJEPA.num_tokens := (grid ^ 2)%Z;
        IJEPA.m_start_end := Hparams.m_start_end hp;
        IJEPA.trainer := None;
        IJEPA.logged := [] |})).

End Construction.

(** ** The momentum update *)

(** The loop of [update_momentum] over [zip(student.parameters(),
    teacher.parameters())]: the new teacher parameters. The zip ends with
    the shorter list, so teacher tensors beyond it are left as they are. *)
Fixpoint momentum_loop (m : Q) (students teachers : list Tensor)
  : result (list Tensor) :=
  match students, teachers with
  | student_param :: ss, teacher_param :: ts =>
      bind (add_ (mul_ teacher_param m) student_param (1 - m))
        (fun t' => bind (momentum_loop m ss ts) (fun rest => Ok (t' :: rest)))
  | _, ts => Ok ts
  end.

Definition update_momentum (self : IJEPA.t) (m : Q) : result IJEPA.t :=
  let student_model := eval (student_encoder (IJEPA.model self)) in
  let teacher_model := eval (teacher_encoder (IJEPA.model self)) in
  bind (momentum_loop m (parameters student_model) (parameters teacher_model))
    (fun ts =>
       Ok (IJEPA.set_model self
             {| student_encoder := student_model;
                teacher_encoder := set_parameters teacher_model ts;
                mode := mode (IJEPA.model self) |})).

(** [on_after_backward]: the update with the current [m], then the
    increment of [m]. Reading [self.trainer] of an unattached module is
    an error. *)
Definition on_after_backward (self : IJEPA.t) : result IJEPA.t :=
  bind (update_momentum self (IJEPA.m self))
    (fun self1 =>
  match IJEPA.trainer self1 with
  | None => Raise RuntimeError
  | Some tr =>
      bind (truediv (snd (IJEPA.m_start_end self1) - fst (IJEPA.m_start_end self1))
              (estimated_stepping_batches tr))
        (fun step => Ok (IJEPA.set_m self1 (IJEPA.m self1 + step)))
  end).

(** The rule as the specification writes it, for one element:
    teacher <- m * teacher + (1 - m) * student. *)
Definition ema (m teacher student : Q) : Q :=
  m * teacher + (1 - m) * student.

(** Two tensors with equal elements. *)
Definition tensor_eq (a b : Tensor) : Prop := Forall2 Qeq a b.

(** The tensors that the zip pairs have the same shape, pair by pair. *)
Fixpoint shapes_match (students teachers : list Tensor) : bool :=
  match students, teachers with
  | s :: ss, t :: ts =>
      Nat.eqb (List.length s) (List.length t) && shapes_match ss ts
  | _, _ => true
  end.

Definition encoders_match (net : IJEPA_base) : bool :=
  shapes_match (parameters (student_encoder net))
               (parameters (teacher_encoder net)).

(** [n] calls of [on_after_backward] in a row. *)
Fixpoint on_after_backward_times (n : nat) (self : IJEPA.t) : result IJEPA.t :=
  match n with
  | O => Ok self
  | S k => bind (on_after_backward self) (on_after_backward_times k)
  end.

(** ** The step methods *)

Section Steps.

(** numpy's global generator and [np.random.uniform(low, high)] on it:
    the drawn number and the generator after the draw. *)
Variable Gen : Type.
Variable uniform : Q -> Q -> Gen -> Q * Gen.

(** A batch, and what calling the network returns. *)
Variable Batch : Type.
Variable Output : Type.

(** [self.model(x, target_aspect_ratio, target_scale, context_aspect_ratio,
    context_scale)] of [model.py]. It reads the network (its parameters
    and its [mode]) and may draw from the generator; it assigns nothing
    to the attributes kept in [IJEPA_base]. *)
Variable network :
  IJEPA_base -> Batch -> Q -> Q -> Q -> Q -> Gen -> result (Output * Gen).

(** The assignment [y_student, y_teacher = ...]: only a pair unpacks. *)
Variable unpack2 : Output -> result (Tensor * Tensor).

(** [nn.MSELoss()]. *)
Variable criterion : Tensor -> Tensor -> Q.

(** [IJEPA.forward]. *)
Definition forward (self : IJEPA.t) (x : Batch)
  (target_aspect_ratio target_scale context_aspect_ratio context_scale : Q)
  (g : Gen) : result (Output * Gen) :=
  network (IJEPA.model self) x target_aspect_ratio target_scale
    context_aspect_ratio context_scale g.

Definition training_step (self : IJEPA.t) (batch : Batch) (batch_idx : Z)
  (g : Gen) : result (Q * IJEPA.t * Gen) :=
  let x := batch in
  let '(target_aspect_ratio, g1) :=
    uniform (fst (IJEPA.target_aspect_ratio self))
            (snd (IJEPA.target_aspect_ratio self)) g in
  let '(target_scale, g2) :=
    uniform (fst (IJEPA.target_scale self)) (snd (IJEPA.target_scale self)) g1 in
  let context_aspect_ratio := IJEPA.context_aspect_ratio self in
  let '(context_scale, g3) :=
    uniform (fst (IJEPA.context_scale self)) (snd (IJEPA.context_scale self)) g2 in
  bind (forward self x target_aspect_ratio target_scale context_aspect_ratio
          context_scale g3)
    (fun og =>
  bind (unpack2 (fst og))
    (fun ys =>
  let loss := criterion (fst ys) (snd ys) in
  Ok (loss, IJEPA.log self "train_loss" loss, snd og))).

Definition validation_step (self : IJEPA.t) (batch : Batch) (batch_idx : Z)
  (g : Gen) : result (Q * IJEPA.t * Gen) :=
  let x := batch in
  let '(target_aspect_ratio, g1) :=
    uniform (fst (IJEPA.target_aspect_ratio self))
            (snd (IJEPA.target_aspect_ratio self)) g in
  let '(target_scale, g2) :=
    uniform (fst (IJEPA.target_scale self)) (snd (IJEPA.target_scale self)) g1 in
  let context_aspect_ratio := IJEPA.context_aspect_ratio self in
  let '(context_scale, g3) :=
    uniform (fst (IJEPA.context_scale self)) (snd (IJEPA.context_scale self)) g2 in
  bind (forward self x target_aspect_ratio target_scale context_aspect_ratio
          context_scale g3)
    (fun og =>
  bind (unpack2 (fst og))
    (fun ys =>
  let loss := criterion (fst ys) (snd ys) in
  Ok (loss, IJEPA.log self "val_loss" loss, snd og))).

(** [self.model.mode = "test"]. *)
Definition set_mode (net : IJEPA_base) (v : string) : IJEPA_base :=
  {| student_encoder := student_encoder net;
     teacher_encoder := teacher_encoder net;
     mode := v |}.

Definition predict_step (self : IJEPA.t) (batch : Batch)
  (batch_idx dataloader_idx : Z) (g : Gen) : result (Output * IJEPA.t * Gen) :=
  let '(target_aspect_ratio, g1) :=
    uniform (fst (IJEPA.target_aspect_ratio self))
            (snd (IJEPA.target_aspect_ratio self)) g in
  let '(target_scale, g2) :=
    uniform (fst (IJEPA.target_scale self)) (snd (IJEPA.target_scale self)) g1 in
  let context_aspect_ratio := IJEPA.context_aspect_ratio self in
  let context_scale := 1 in
  let self1 := IJEPA.set_model self (set_mode (IJEPA.model self) "test") in
  bind (forward self1 batch target_aspect_ratio target_scale
          context_aspect_ratio context_scale g2)
    (fun og => Ok (fst og, self1, snd og)).

(** [configure_optimizers]: AdamW on the module's parameters, a one-cycle
    schedule over the planned steps, stepped once per optimizer step. *)
Record OneCycleLR : Type := {
  max_lr : Q;
  total_steps : Z
}.

Record optimizers : Type := {
  adamw_lr : Q;
  adamw_weight_decay : Q;
  scheduler : OneCycleLR;
  interval : string
}.

Definition configure_optimizers (self : IJEPA.t) : result optimizers :=
  match IJEPA.trainer self with
  | None => Raise RuntimeError
  | Some tr =>
      Ok {| adamw_lr := IJEPA.lr self;
            adamw_weight_decay := IJEPA.weight_decay self;
            scheduler := {| max_lr := IJEPA.lr self;
                            total_steps := estimated_stepping_batches tr |};
            interval := "step" |}
  end.

(** ** The training loop that calls the hooks

    [trainer.fit] belongs to pytorch_lightning. As far as the methods
    this module defines are concerned, one training batch under automatic
    optimisation runs [training_step], then [loss.backward()], then the
    hook [on_after_backward] (called after [loss.backward()] and before
    the optimizers are stepped), then the optimizer step and, with
    interval "step", the scheduler step. A validation batch runs
    [validation_step] only. *)

Inductive event : Type :=
| EvTrainingStep
| EvBackward
| EvMomentumUpdate
| EvMomentumIncrement
| EvOptimizerStep
| EvSchedulerStep
| EvValidationStep.

Definition event_eqb (a b : event) : bool :=
  match a, b with
  | EvTrainingStep, EvTrainingStep
  | EvBackward, EvBackward
  | EvMomentumUpdate, EvMomentumUpdate
  | EvMomentumIncrement, EvMomentumIncrement
  | EvOptimizerStep, EvOptimizerStep
  | EvSchedulerStep, EvSchedulerStep
  | EvValidationStep, EvValidationStep => true
  | _, _ => false
  end.

(** Gradients, [loss.backward()] and [optimizer.step()] of torch. *)
Variable Grad : Type.
Variable backward : IJEPA_base -> Q -> Grad.
Variable optimizer_step : Grad -> IJEPA_base -> IJEPA_base.

Record Loop : Type := {
  module : IJEPA.t;
  generator : Gen;
  events : list event
}.

(** The events of [on_after_backward], in the order of its two lines. *)
Definition on_after_backward_events : list event :=
  [EvMomentumUpdate; EvMomentumIncrement].

Definition training_batch (w : Loop) (batch : Batch) (batch_idx : Z)
  : result Loop :=
  bind (training_step (module w) batch batch_idx (generator w))
    (fun r =>
  let '(loss, self1, g1) := r in
  let grad := backward (IJEPA.model self1) loss in
  bind (on_after_backward self1)
    (fun self2 =>
  let self3 :=
    IJEPA.set_model self2 (optimizer_step grad (IJEPA.model self2)) in
  Ok {| module := self3;
        generator := g1;
        events := events w ++ [EvTrainingStep; EvBackward]
                    ++ on_after_backward_events
                    ++ [EvOptimizerStep; EvSchedulerStep] |})).

Definition validation_batch (w : Loop) (batch : Batch) (batch_idx : Z)
  : result Loop :=
  bind (validation_step (module w) batch batch_idx (generator w))
    (fun r =>
  let '(_, self1, g1) := r in
  Ok {| module := self1;
        generator := g1;
        events := events w ++ [EvValidationStep] |}).

(** The order of events in a training step as the specification words
    it: backpropagate, optimizer step, scheduler step, momentum update. *)
Definition spec_training_order : list event :=
  [EvBackward; EvOptimizerStep; EvSchedulerStep; EvMomentumUpdate].

(** A training batch run in the order of the specification, for
    comparison with [training_batch]: the hook body runs last. *)
Definition spec_training_batch (w : Loop) (batch : Batch) (batch_idx : Z)
  : result Loop :=
  bind (training_step (module w) batch batch_idx (generator w))
    (fun r =>
  let '(loss, self1, g1) := r in
  let grad := backward (IJEPA.model self1) loss in
  let self2 :=
    IJEPA.set_model self1 (optimizer_step grad (IJEPA.model self1)) in
  bind (on_after_backward self2)
    (fun self3 =>
  Ok {| module := self3;
        generator := g1;
        events := events w ++ [EvTrainingStep] ++ spec_training_order
                    ++ [EvMomentumIncrement] |})).

(** The events of a trace that the specification's order speaks of. *)
Definition ordered_events (l : list event) : list event :=
  filter (fun e => existsb (event_eqb e) spec_training_order) l.

(** The position of the first [e] in a list of events. *)
Fixpoint position (e : event) (l : list event) : option nat :=
  match l with
  | [] => None
  | x :: xs =>
      if event_eqb e x then Some O
      else match position e xs with
           | Some n => Some (S n)
           | None => None
           end
  end.

End Steps.

(** ** The scalar m in binary64

    [self.m], [m_start_end] and the quotient of line 191 are Python
    floats, that is binary64 numbers; the primitive floats compute the
    same sums and quotients, bit for bit. *)

Module Binary64.
Local Open Scope float_scope.

(** An integer as a float; exact below 2^53. *)
Fixpoint of_pos (p : positive) : float :=
  match p with
  | xH => 1
  | xO q => 2 * of_pos q
  | xI q => 2 * of_pos q + 1
  end.

Definition of_Z (z : Z) : float :=
  match z with
  | Z0 => 0
  | Zpos p => of_pos p
  | Zneg p => - of_pos p
  end.

(** Line 191: [self.m += (m_start_end[1] - m_start_end[0]) / steps]. *)
Definition next_m (m_start m_end : float) (steps : Z) (m : float) : float :=
  m + (m_end - m_start) / of_Z steps.

(** The values of m before the first call and after each of [n] calls. *)
Fixpoint m_trace (n : nat) (m_start m_end : float) (steps : Z) (m : float)
  : list float :=
  match n with
  | O => [m]
  | S k => m :: m_trace k m_start m_end steps (next_m m_start m_end steps m)
  end.

Fixpoint nondecreasing (l : list float) : bool :=
  match l with
  | x :: ((y :: _) as r) => (x <=? y) && nondecreasing r
  | _ => true
  end.






End Binary64.

(** ** Where a file sits, told without [os.path.join]

    For comparison with what [load_images] collects: the chain of
    subdirectory names that leads from a directory to a file, the entry
    names a directory listing can give, and the spellings of the
    extension. *)

(** A name with the separator somewhere in it. *)
Fixpoint has_separator (s : string) : bool :=
  match s with
  | EmptyString => false
  | String c s' => Ascii.eqb c "/" || has_separator s'
  end.

(** A name as a directory listing gives it: not empty, no separator. *)
Definition plain (name : string) : bool :=
  negb (String.eqb name "") && negb (has_separator name).

(** ".jpeg" in any mix of upper and lower case. *)
Definition jpeg_spelling (ext : string) : Prop :=
  exists j p e g : ascii,
    ext = String "." (String j (String p (String e (String g EmptyString)))) /\
    (j = "j" \/ j = "J")%char /\ (p = "p" \/ p = "P")%char /\
    (e = "e" \/ e = "E")%char /\ (g = "g" \/ g = "G")%char.

(** A root that [os.path.join] extends with a separator. *)
Definition closed_root (top : string) : Prop :=
  top <> ""%string /\ forall r, top <> (r ++ "/")%string.

(** A root that [os.path.join] extends as it is. *)
Definition open_root (top : string) : Prop :=
  top = ""%string \/ exists r, top = (r ++ "/")%string.

Section Located.
Variable FileData : Type.

(** [located entries dirs name c]: going down from a directory with
    these entries through the subdirectories named [dirs], in this order,
    one finds a file called [name] with content [c]. *)
Inductive located : list (node FileData) -> list string -> string -> FileData -> Prop :=
| located_here : forall entries name c,
    In (File name c) entries ->
    located entries [] name c
| located_below : forall entries d es dirs name c,
    In (Dir d es) entries ->
    located es dirs name c ->
    located entries (d :: dirs) name c.

Fixpoint plain_names (n : node FileData) : bool :=
  match n with
  | File f _ => plain f
  | Dir d es => plain d && forallb plain_names es
  end.

End Located.

(** ** Names as a directory listing gives them *)

Section Names.
Variable FileData : Type.

(** An entry name that does not begin with the separator. *)
Definition relative (name : string) : bool :=
  negb (Str.startswith name "/").

Fixpoint names_relative (n : node FileData) : bool :=
  match n with
  | File f _ => relative f
  | Dir d es => relative d && forallb names_relative es
  end.

End Names.

(** ** The momentum loop on IEEE 754 tensors

    The parameters are float tensors. [IEEE] runs the loop of lines
    148-150 on tensors of any binary format [(prec, emax)] (binary16 is
    [(11, 16)], binary32 [(24, 128)], binary64 [(53, 1024)]), with all the
    special values: signed zeros, infinities, NaN. The coefficient [m] is
    a Python float, a binary64 number; [1 - m] is computed in binary64,
    and both scalars are converted to the format of the tensor they
    meet. *)

Module IEEE.

Definition Tensor : Type := list spec_float.

Section Format.
Variables prec emax : Z.

(** A binary64 scalar converted to the format, to nearest even. *)
Definition of_python_float (x : spec_float) : spec_float :=
  match x with
  | S754_finite s m e => binary_round prec emax s m e
  | _ => x
  end.

(** [self.mul_(other)] with a Python float. *)
Definition mul_ (self : Tensor) (other : spec_float) : Tensor :=
  map (fun x => SFmul prec emax x (of_python_float other)) self.

(** [self.add_(other, alpha=alpha)]: element-wise [self + alpha * other];
    tensors of different shapes are refused. *)
Fixpoint add_ (self other : Tensor) (alpha : spec_float) : result Tensor :=
  match self, other with
  | [], [] => Ok []
  | x :: xs, y :: ys =>
      bind (add_ xs ys alpha)
        (fun r =>
           Ok (SFadd prec emax x (SFmul prec emax (of_python_float alpha) y)
               :: r))
  | _, _ => Raise RuntimeError
  end.

(** The loop of [update_momentum] over the zipped parameter lists. *)
Fixpoint momentum_loop (m : spec_float) (students teachers : list Tensor)
  : result (list Tensor) :=
  match students, teachers with
  | student_param :: ss, teacher_param :: ts =>
      bind (add_ (mul_ teacher_param m) student_param
              (SFsub 53 1024 (SFone 53 1024) m))
        (fun t' => bind (momentum_loop m ss ts) (fun rest => Ok (t' :: rest)))
  | _, ts => Ok ts
  end.

(** A number of the format that is neither an infinity nor NaN. *)
Definition finite (x : spec_float) : bool :=
  match x with
  | S754_zero _ => true
  | S754_finite _ m e => bounded prec emax m e
  | _ => false
  end.



End Format.

(** The value 1 with [k] fraction bits: 2^k * 2^(-k). *)
Definition one (k : positive) : spec_float :=
  S754_finite false (Pos.iter xO xH k) (Zneg k).


Fixpoint shapes_match (students teachers : list Tensor) : bool :=
  match students, teachers with
  | s :: ss, t :: ts =>
      Nat.eqb (List.length s) (List.length t) && shapes_match ss ts
  | _, _ => true
  end.

End IEEE.

(** ** A small concrete world on which the definitions run *)

Module Demo.
Local Open Scope string_scope.

(** Files hold a picture number, or nothing PIL can read. *)
Definition open_convert (d : option nat) : result nat :=
  match d with
  | Some n => Ok n
  | None => Raise UnidentifiedImageError
  end.

Definition transform (size : Z * Z) (p : nat) : Z * Z * nat := (size, p).

Definition tree : list (node (option nat)) :=
  [ File "a.JPEG" (Some 1%nat);
    File "notes.txt" None;
    Dir "cats" [ File "b.jpeg" (Some 2%nat);
                 File "c.jpg" (Some 3%nat);
                 Dir "deep" [ File "D.JpEg" (Some 4%nat) ] ];
    Dir "empty" [] ].

(** A tree in which the second matching file cannot be read. *)
Definition broken : list (node (option nat)) :=
  [ File "a.jpeg" (Some 1%nat);
    File "junk.png" None;
    Dir "sub" [ File "bad.JPEG" None; File "c.jpeg" (Some 3%nat) ] ].

Definition no_images : list (node (option nat)) :=
  [ File "notes.txt" None;
    Dir "sub" [ File "c.png" (Some 3%nat); File "jpeg" (Some 5%nat) ] ].

(** A generator: a small congruential state and the number of draws. *)
Definition Gen : Type := Z * nat.

Definition uniform (low high : Q) (g : Gen) : Q * Gen :=
  (low + (high - low) * ((fst g mod 16)%Z # 16),
   ((5 * fst g + 3) mod 16, S (snd g))%Z).

Definition flatten (ps : list Tensor) : Tensor := List.concat ps.

(** A stand-in network: a pair in training mode, the teacher side alone
    in mode "test"; the numbers of the call show in the output. *)
Definition network (net : IJEPA_base) (x : list Tensor)
  (tar ts car cs : Q) (g : Gen) : result (list Tensor * Gen) :=
  let y_teacher := map (fun v => v * tar + ts) (flatten (parameters (teacher_encoder net))) in
  let y_student := map (fun v => v * car + cs) (flatten (parameters (student_encoder net))) in
  if String.eqb (mode net) "test" then Ok ([(y_teacher ++ [cs])%list], g)
  else Ok ([y_student; y_teacher], g).

Definition unpack2 (out : list Tensor) : result (Tensor * Tensor) :=
  match out with
  | [a; b] => Ok (a, b)
  | _ => Raise ValueError
  end.

Fixpoint sum_sq (a b : Tensor) : Q :=
  match a, b with
  | x :: xs, y :: ys => (x - y) * (x - y) + sum_sq xs ys
  | _, _ => 0
  end.

Definition criterion (a b : Tensor) : Q :=
  sum_sq a b / inject_Z (Z.of_nat (List.length a)).

Definition backward (net : IJEPA_base) (loss : Q) : Q := loss.

(** A stand-in optimizer: every student element moves by one. *)
Definition optimizer_step (grad : Q) (net : IJEPA_base) : IJEPA_base :=
  {| student_encoder :=
       set_parameters (student_encoder net)
         (map (map (fun v => v + 1)) (parameters (student_encoder net)));
     teacher_encoder := teacher_encoder net;
     mode := mode net |}.

Definition net0 : IJEPA_base :=
  {| student_encoder := {| parameters := [[1; 2]; [3]]; training := true |};
     teacher_encoder := {| parameters := [[0; 4]; [1]]; training := true |};
     mode := "train" |}.

Definition IJEPA_base_new (img_size patch_size in_chans embed_dim enc_depth
  num_heads pred_depth M : Z) : result IJEPA_base := Ok net0.

(** A module with the default hyperparameters, attached to a trainer
    that plans four steps. *)
Definition attach (r : result IJEPA.t) (steps : Z) : result IJEPA.t :=
  bind r (fun self =>
    Ok (IJEPA.set_trainer self (Some {| estimated_stepping_batches := steps |}))).

Definition module0 : result IJEPA.t :=
  attach (IJEPA_init IJEPA_base_new Hparams.default) 4.

(** The same module, written out. *)
Definition self0 : IJEPA.t :=
  {| IJEPA.model := net0;
     IJEPA.M := 4;
     IJEPA.lr := 1 # 1000000;
     IJEPA.weight_decay := 5 # 100;
     IJEPA.m := 996 # 1000;
     IJEPA.target_aspect_ratio := (75 # 100, 15 # 10);
     IJEPA.target_scale := (15 # 100, 2 # 10);
     IJEPA.context_aspect_ratio := 1;
     IJEPA.context_scale := (85 # 100, 1);
     IJEPA.embed_dim := 64;
     IJEPA.patch_size := 16;
     IJEPA.num_tokens := 196;
     IJEPA.m_start_end := (996 # 1000, 1);
     IJEPA.trainer := Some {| estimated_stepping_batches := 4 |};
     IJEPA.logged := [] |}.

Definition batch0 : list Tensor := [[1; 1]; [2; 2]; [3; 3]].

(** The defaults, with an image size that the patch size does not divide. *)
Definition hparams_225 : Hparams.t :=
  {| Hparams.img_size := 225;
     Hparams.patch_size := 16;
     Hparams.in_chans := 3;
     Hparams.embed_dim := 64;
     Hparams.enc_heads := 8;
     Hparams.enc_depth := 8;
     Hparams.decoder_depth := 6;
     Hparams.lr := 1 # 1000000;
     Hparams.weight_decay := 5 # 100;
     Hparams.target_aspect_ratio := (75 # 100, 15 # 10);
     Hparams.target_scale := (15 # 100, 2 # 10);
     Hparams.context_aspect_ratio := 1;
     Hparams.context_scale := (85 # 100, 1);
     Hparams.M := 4;
     Hparams.m := 996 # 1000;
     Hparams.m_start_end := (996 # 1000, 1) |}.

(** Some binary32 numbers: 1.5, 2.5, -0.75. *)
Definition f1_5 : spec_float := S754_finite false 12582912 (-23).
Definition f2_5 : spec_float := S754_finite false 10485760 (-22).
Definition fm0_75 : spec_float := S754_finite true 12582912 (-24).

(** Binary32 parameters, with a zero of each sign and an infinity among
    the teacher's numbers. *)
Definition float_students : list IEEE.Tensor :=
  [[f2_5; fm0_75]; [S754_zero false; f1_5]].

Definition float_teachers : list IEEE.Tensor :=
  [[f1_5; S754_zero true]; [S754_infinity false; fm0_75]; [f2_5]].


(** The loop at the start of training: seed 7, nothing drawn yet. *)
Definition loop0 : Loop Gen :=
  {| module := self0; generator := (7%Z, 0%nat); events := [] |}.

End Demo.

(** * Properties *)

Lemma endswith_app (p suffix : string) : Str.endswith (p ++ suffix) suffix = true.
Proof.
  induction p as [|c p IH].
  - destruct suffix; cbn [Str.endswith append]; rewrite String.eqb_refl; reflexivity.
  - cbn [Str.endswith append]. rewrite IH. apply orb_true_r.
Qed.

Lemma endswith_spec (s suffix : string) :
  Str.endswith s suffix = true <-> exists p, s = (p ++ suffix)%string.
Proof.
  split.
  - induction s as [|c s IH]; cbn [Str.endswith]; intros H.
    + apply orb_true_iff in H. destruct H as [H|H]; [|discriminate].
      apply String.eqb_eq in H. exists EmptyString. exact H.
    + apply orb_true_iff in H. destruct H as [H|H].
      * apply String.eqb_eq in H. exists EmptyString. exact H.
      * destruct (IH H) as [p ->]. exists (String c p). reflexivity.
  - intros [p ->]. apply endswith_app.
Qed.

Section CorpusFacts.
Variable FileData : Type.

Lemma node_nested_ind (P : node FileData -> Prop) :
  (forall name c, P (File name c)) ->
  (forall d es, Forall P es -> P (Dir d es)) ->
  forall n, P n.
Proof.
  intros Hf Hd. fix IH 1. intros [name c|d es].
  - apply Hf.
  - apply Hd. induction es as [|e es IHes]; constructor.
    + apply IH.
    + exact IHes.
Qed.

Lemma in_filenames (es : list (node FileData)) f c :
  In (f, c) (filenames es) <-> In (File f c) es.
Proof.
  unfold filenames. rewrite in_flat_map. split.
  - intros [[n c'|d es'] [Hin H]]; simpl in H.
    + destruct H as [H|[]]. inversion H; subst. exact Hin.
    + destruct H.
  - intros H. exists (File f c). split; [exact H|left; reflexivity].
Qed.

Lemma in_item_files root ds (es : list (node FileData)) p c :
  In (p, c) (item_files (root, ds, filenames es)) <->
  exists name, In (File name c) es /\ p = Str.join root name /\ is_jpeg name = true.
Proof.
  unfold item_files. rewrite in_map_iff. split.
  - intros [[f c'] [Heq Hin]]. simpl in Heq. inversion Heq; subst.
    apply filter_In in Hin. destruct Hin as [Hin Hj]. simpl in Hj.
    exists f. rewrite <- in_filenames. auto.
  - intros (name & Hin & -> & Hj). exists (name, c). split; [reflexivity|].
    apply filter_In. split; [apply in_filenames; exact Hin|exact Hj].
Qed.

Lemma in_walk_node (n : node FileData) : forall top p c,
  In (p, c) (flat_map item_files (walk_node top n)) <->
  exists d es name, n = Dir d es /\
    file_under (Str.join top d) es p name c /\ is_jpeg name = true.
Proof.
  induction n as [name0 c0|d es IH] using node_nested_ind; intros top p c.
  - simpl. split; [intros []|intros (d & es & name & H & _); discriminate].
  - cbn [walk_node flat_map]. rewrite in_app_iff, in_item_files. split.
    + intros [(name & Hin & -> & Hj)|H].
      * exists d, es, name. split; [reflexivity|]. split; [|exact Hj].
        constructor. exact Hin.
      * apply in_flat_map in H. destruct H as (it & Hit & H).
        apply in_flat_map in Hit. destruct Hit as (e & Hin & Hit).
        assert (He : In (p, c) (flat_map item_files (walk_node (Str.join top d) e)))
          by (apply in_flat_map; exists it; auto).
        rewrite Forall_forall in IH. apply (IH e Hin) in He.
        destruct He as (d' & es' & name & -> & Hu & Hj).
        exists d, es, name. split; [reflexivity|]. split; [|exact Hj].
        eapply file_below; eauto.
    + intros (d' & es' & name & Heq & Hu & Hj). inversion Heq; subst d' es'.
      inversion Hu; subst.
      * left. exists name. auto.
      * right. rewrite Forall_forall in IH.
        assert (He : In (p, c) (flat_map item_files
                                  (walk_node (Str.join top d) (Dir d0 es0)))).
        { apply (IH _ H). exists d0, es0, name. auto. }
        apply in_flat_map in He. destruct He as (it & Hit & He).
        apply in_flat_map. exists it. split; [|exact He].
        apply in_flat_map. exists (Dir d0 es0). auto.
Qed.

Lemma in_walk_dir (top : string) (entries : list (node FileData)) p c :
  In (p, c) (flat_map item_files (walk_dir top entries)) <->
  exists name, file_under top entries p name c /\ is_jpeg name = true.
Proof.
  unfold walk_dir. cbn [flat_map]. rewrite in_app_iff, in_item_files. split.
  - intros [(name & Hin & -> & Hj)|H].
    + exists name. split; [constructor; exact Hin|exact Hj].
    + apply in_flat_map in H. destruct H as (it & Hit & H).
      apply in_flat_map in Hit. destruct Hit as (e & Hin & Hit).
      assert (He : In (p, c) (flat_map item_files (walk_node top e)))
        by (apply in_flat_map; exists it; auto).
      apply in_walk_node in He. destruct He as (d & es & name & -> & Hu & Hj).
      exists name. split; [eapply file_below; eauto|exact Hj].
  - intros (name & Hu & Hj). inversion Hu; subst.
    + left. exists name. auto.
    + right.
      assert (He : In (p, c) (flat_map item_files (walk_node top (Dir d es)))).
      { apply in_walk_node. exists d, es, name. auto. }
      apply in_flat_map in He. destruct He as (it & Hit & He).
      apply in_flat_map. exists it. split; [|exact He].
      apply in_flat_map. exists (Dir d es). auto.
Qed.

Lemma list_sum_cons (x : nat) (l : list nat) :
  list_sum (x :: l) = (x + list_sum l)%nat.
Proof. reflexivity. Qed.

Lemma length_flat_map_flat_map {A B C : Type} (f : B -> list C) (g : A -> list B) l :
  List.length (flat_map f (flat_map g l)) =
  list_sum (map (fun a => List.length (flat_map f (g a))) l).
Proof.
  induction l as [|a l IH]; [reflexivity|].
  cbn [flat_map map]. rewrite list_sum_cons, flat_map_app, length_app, IH.
  reflexivity.
Qed.

Lemma length_item_files root ds (es : list (node FileData)) :
  List.length (item_files (root, ds, filenames es)) =
  list_sum (map (fun n => match n with
                          | File f _ => if is_jpeg f then 1%nat else 0%nat
                          | Dir _ _ => 0%nat
                          end) es).
Proof.
  unfold item_files. rewrite length_map.
  induction es as [|[f c|d es'] es IH]; [reflexivity| |exact IH].
  cbn [filenames flat_map app filter fst map]. rewrite list_sum_cons.
  fold (filenames es). destruct (is_jpeg f); cbn [List.length]; rewrite IH; reflexivity.
Qed.

Lemma length_walk_node (n : node FileData) : forall top,
  List.length (flat_map item_files (walk_node top n)) =
  match n with File _ _ => 0%nat | Dir _ _ => jpeg_count n end.
Proof.
  induction n as [name0 c0|d es IH] using node_nested_ind; intros top;
    [reflexivity|].
  cbn [walk_node flat_map jpeg_count]. rewrite length_app, length_item_files.
  rewrite length_flat_map_flat_map.
  induction es as [|e es IHes]; [reflexivity|].
  inversion IH as [|? ? He Hes]; subst. cbn [map list_sum].
  rewrite (He (Str.join top d)). specialize (IHes Hes).
  destruct e as [f c|d' es']; cbn [jpeg_count]; [destruct (is_jpeg f)|];
    rewrite !list_sum_cons; lia.
Qed.

Lemma length_walk_dir (top : string) (entries : list (node FileData)) :
  List.length (flat_map item_files (walk_dir top entries)) =
  list_sum (map (@jpeg_count FileData) entries).
Proof.
  unfold walk_dir. cbn [flat_map]. rewrite length_app, length_item_files.
  rewrite length_flat_map_flat_map.
  induction entries as [|e es IH]; [reflexivity|].
  cbn [map]. rewrite length_walk_node.
  destruct e as [f c|d' es']; cbn [jpeg_count]; [destruct (is_jpeg f)|];
    rewrite !list_sum_cons; lia.
Qed.

End CorpusFacts.

Lemma lower_ascii_idem (c : ascii) :
  Str.lower_ascii (Str.lower_ascii c) = Str.lower_ascii c.
Proof.
  destruct c as [[] [] [] [] [] [] [] []]; reflexivity.
Qed.

Lemma lower_idem (s : string) : Str.lower (Str.lower s) = Str.lower s.
Proof.
  induction s as [|c s IH]; [reflexivity|].
  cbn [Str.lower]. rewrite lower_ascii_idem, IH. reflexivity.
Qed.

(** *** Facts about strings *)

Lemma str_app_assoc (a b c : string) : ((a ++ b) ++ c = a ++ (b ++ c))%string.
Proof. induction a as [|x a IH]; cbn; [reflexivity|]. rewrite IH. reflexivity. Qed.

Lemma str_app_nil_r (a : string) : (a ++ "" = a)%string.
Proof. induction a as [|x a IH]; cbn; [reflexivity|]. rewrite IH. reflexivity. Qed.

Lemma str_length_app (a b : string) :
  String.length (a ++ b) = (String.length a + String.length b)%nat.
Proof. induction a as [|x a IH]; cbn; [reflexivity|]. rewrite IH. reflexivity. Qed.

Lemma str_length_zero (a : string) : String.length a = 0%nat -> a = ""%string.
Proof. destruct a; [reflexivity|discriminate]. Qed.

Lemma str_app_eq_app : forall a b p q : string,
  (a ++ b = p ++ q)%string ->
  (exists k, a = (p ++ k)%string /\ q = (k ++ b)%string) \/
  (exists k, p = (a ++ k)%string /\ b = (k ++ q)%string).
Proof.
  induction a as [|x a IH]; intros b p q H.
  - right. exists p. split; [reflexivity|exact H].
  - destruct p as [|y p].
    + left. exists (String x a). split; [reflexivity|]. symmetry. exact H.
    + cbn in H. injection H as -> H.
      destruct (IH b p q H) as [(k & -> & ->)|(k & -> & ->)].
      * left. exists k. split; reflexivity.
      * right. exists k. split; reflexivity.
Qed.

Lemma lower_app (a b : string) :
  Str.lower (a ++ b) = (Str.lower a ++ Str.lower b)%string.
Proof. induction a as [|x a IH]; cbn; [reflexivity|]. rewrite IH. reflexivity. Qed.

Lemma length_lower (a : string) : String.length (Str.lower a) = String.length a.
Proof. induction a as [|x a IH]; cbn; [reflexivity|]. rewrite IH. reflexivity. Qed.

Lemma endswith_app_r (a b suffix : string) :
  Str.endswith b suffix = true -> Str.endswith (a ++ b) suffix = true.
Proof.
  intros H. apply endswith_spec in H. destruct H as [p ->].
  rewrite <- str_app_assoc. apply endswith_app.
Qed.

Lemma endswith_long_tail (a b suffix : string) :
  (String.length suffix <= String.length b)%nat ->
  Str.endswith (a ++ b) suffix = Str.endswith b suffix.
Proof.
  intros Hl. destruct (Str.endswith b suffix) eqn:E.
  - apply endswith_app_r. exact E.
  - destruct (Str.endswith (a ++ b) suffix) eqn:E'; [|reflexivity].
    apply endswith_spec in E'. destruct E' as [p Hp].
    destruct (str_app_eq_app _ _ _ _ Hp) as [(k & _ & Hs)|(k & _ & Hb)].
    + assert (k = ""%string).
      { apply str_length_zero. rewrite Hs, str_length_app in Hl. lia. }
      subst k. cbn in Hs. subst suffix.
      rewrite <- E. symmetry. apply (endswith_app ""%string b).
    + rewrite <- E. symmetry. apply endswith_spec. exists k. exact Hb.
Qed.

Lemma endswith_short_tail (a b suffix : string) :
  (String.length b < String.length suffix)%nat ->
  Str.endswith (a ++ b) suffix = true -> Str.endswith suffix b = true.
Proof.
  intros Hl H. apply endswith_spec in H. destruct H as [p Hp].
  destruct (str_app_eq_app _ _ _ _ Hp) as [(k & _ & Hs)|(k & _ & Hb)].
  - apply endswith_spec. exists k. exact Hs.
  - rewrite Hb, str_length_app in Hl. lia.
Qed.

(** *** Which files are collected, and under which path *)

Lemma lower_split : forall n a b : string,
  Str.lower n = (a ++ b)%string ->
  exists n1 n2, n = (n1 ++ n2)%string /\ Str.lower n1 = a /\ Str.lower n2 = b.
Proof.
  intros n a. revert n. induction a as [|x a IH]; intros n b H.
  - exists EmptyString, n. auto.
  - destruct n as [|c n]; [discriminate|]. cbn in H. injection H as Hc H.
    destruct (IH n b H) as (n1 & n2 & -> & <- & <-).
    exists (String c n1), n2. cbn. rewrite Hc. auto.
Qed.

Lemma lower_dot (c : ascii) : Str.lower_ascii c = "."%char -> c = "."%char.
Proof.
  destruct c as [[] [] [] [] [] [] [] []]; cbv; intros H;
    first [discriminate H | reflexivity].
Qed.

Lemma lower_j (c : ascii) :
  Str.lower_ascii c = "j"%char -> (c = "j" \/ c = "J")%char.
Proof.
  destruct c as [[] [] [] [] [] [] [] []]; cbv; intros H;
    first [discriminate H | left; reflexivity | right; reflexivity].
Qed.

Lemma lower_p (c : ascii) :
  Str.lower_ascii c = "p"%char -> (c = "p" \/ c = "P")%char.
Proof.
  destruct c as [[] [] [] [] [] [] [] []]; cbv; intros H;
    first [discriminate H | left; reflexivity | right; reflexivity].
Qed.

Lemma lower_e (c : ascii) :
  Str.lower_ascii c = "e"%char -> (c = "e" \/ c = "E")%char.
Proof.
  destruct c as [[] [] [] [] [] [] [] []]; cbv; intros H;
    first [discriminate H | left; reflexivity | right; reflexivity].
Qed.

Lemma lower_g (c : ascii) :
  Str.lower_ascii c = "g"%char -> (c = "g" \/ c = "G")%char.
Proof.
  destruct c as [[] [] [] [] [] [] [] []]; cbv; intros H;
    first [discriminate H | left; reflexivity | right; reflexivity].
Qed.

Lemma lower_jpeg_spelling (ext : string) :
  Str.lower ext = ".jpeg"%string <-> jpeg_spelling ext.
Proof.
  split.
  - destruct ext as [|c0 [|c1 [|c2 [|c3 [|c4 [|c5 r]]]]]]; try discriminate.
    cbn. intros H. injection H as H0 H1 H2 H3 H4.
    exists c1, c2, c3, c4. rewrite (lower_dot _ H0).
    split; [reflexivity|].
    split; [apply lower_j; assumption|]. split; [apply lower_p; assumption|].
    split; [apply lower_e; assumption|apply lower_g; assumption].
  - intros (j & p & e & g & -> & [-> | ->] & [-> | ->] & [-> | ->] & [-> | ->]);
      reflexivity.
Qed.

Lemma is_jpeg_spelling (name : string) :
  is_jpeg name = true <->
  exists stem ext, name = (stem ++ ext)%string /\ jpeg_spelling ext.
Proof.
  unfold is_jpeg. rewrite endswith_spec. split.
  - intros [s H]. destruct (lower_split _ _ _ H) as (n1 & n2 & -> & _ & H2).
    exists n1, n2. split; [reflexivity|]. apply lower_jpeg_spelling. exact H2.
  - intros (stem & ext & -> & Hsp). apply lower_jpeg_spelling in Hsp.
    exists (Str.lower stem). rewrite lower_app, Hsp. reflexivity.
Qed.

Lemma has_separator_app (a b : string) :
  has_separator (a ++ b) = has_separator a || has_separator b.
Proof.
  induction a as [|c a IH]; cbn; [reflexivity|].
  rewrite IH, orb_assoc. reflexivity.
Qed.

Lemma plain_facts (name : string) :
  plain name = true ->
  name <> ""%string /\ has_separator name = false /\
  Str.startswith name "/" = false.
Proof.
  unfold plain. intros H. apply andb_true_iff in H. destruct H as [Hn Hs].
  apply negb_true_iff in Hn, Hs. split.
  - intros ->. discriminate.
  - split; [exact Hs|]. destruct name as [|c s]; [reflexivity|].
    cbn in Hs. apply orb_false_iff in Hs. destruct Hs as [Hc _].
    unfold Str.startswith. cbn [String.prefix].
    destruct (ascii_dec "/" c) as [<-|]; [discriminate|reflexivity].
Qed.

Lemma join_closed (top b : string) :
  closed_root top -> plain b = true ->
  Str.join top b = (top ++ "/" ++ b)%string.
Proof.
  intros [Hne Hns] Hb. destruct (plain_facts _ Hb) as (_ & _ & Hrel).
  unfold Str.join. rewrite Hrel.
  destruct (String.eqb_spec top "") as [|_]; [contradiction|].
  destruct (Str.endswith top "/") eqn:E; [|reflexivity].
  apply endswith_spec in E. destruct E as [r E]. elim (Hns r E).
Qed.

Lemma join_open (top b : string) :
  open_root top -> plain b = true -> Str.join top b = (top ++ b)%string.
Proof.
  intros Ho Hb. destruct (plain_facts _ Hb) as (_ & _ & Hrel).
  unfold Str.join. rewrite Hrel. destruct Ho as [->|[r ->]].
  - reflexivity.
  - rewrite endswith_app, orb_true_r. reflexivity.
Qed.

Lemma closed_after (x d : string) : plain d = true -> closed_root (x ++ d).
Proof.
  intros Hd. destruct (plain_facts _ Hd) as (Hne & Hs & _). split.
  - intros H. destruct x; [cbn in H; contradiction|discriminate].
  - intros r H. destruct (str_app_eq_app _ _ _ _ H) as [(k & _ & Hk)|(k & _ & Hk)].
    + destruct k as [|c k].
      * cbn in Hk. subst d. discriminate.
      * cbn in Hk. injection Hk as _ Hk. destruct k; [|discriminate].
        cbn in Hk. symmetry in Hk. contradiction.
    + rewrite Hk, has_separator_app in Hs. cbn in Hs.
      rewrite orb_true_r in Hs. discriminate.
Qed.

Lemma concat_cons (sep x : string) (l : list string) :
  l <> [] ->
  String.concat sep (x :: l) = (x ++ sep ++ String.concat sep l)%string.
Proof. destruct l; [contradiction|reflexivity]. Qed.

Lemma snoc_not_nil {A : Type} (l : list A) (x : A) : (l ++ [x])%list <> [].
Proof. destruct l; discriminate. Qed.

Section LocatedFacts.
Variable FileData : Type.

Lemma plain_names_in (entries : list (node FileData)) (n : node FileData) :
  forallb (@plain_names FileData) entries = true ->
  In n entries -> plain_names n = true.
Proof. intros H Hin. rewrite forallb_forall in H. apply H. exact Hin. Qed.

Lemma located_closed : forall (entries : list (node FileData)) dirs name c,
  located entries dirs name c ->
  forall top, closed_root top ->
  forallb (@plain_names FileData) entries = true ->
  file_under top entries (String.concat "/" (top :: dirs ++ [name])) name c.
Proof.
  induction 1 as [entries name c Hin|entries d es dirs name c Hin _ IH];
    intros top Htop Hpl.
  - pose proof (plain_names_in _ _ Hpl Hin) as Hn. cbn in Hn.
    cbn [app]. change (String.concat "/" [top; name])
      with (top ++ "/" ++ name)%string.
    rewrite <- (@join_closed _ _ Htop Hn). constructor. exact Hin.
  - pose proof (plain_names_in _ _ Hpl Hin) as Hn. cbn in Hn.
    apply andb_true_iff in Hn. destruct Hn as [Hd Hes].
    apply file_below with (d := d) (es := es); [exact Hin|].
    rewrite (@join_closed _ _ Htop Hd).
    assert (Hc : closed_root (top ++ "/" ++ d)).
    { rewrite <- str_app_assoc. apply closed_after. exact Hd. }
    specialize (IH _ Hc Hes).
    rewrite (concat_cons "/" _ (@snoc_not_nil _ dirs name)) in IH.
    cbn [app]. rewrite (concat_cons "/" top); [|discriminate].
    rewrite (concat_cons "/" d (@snoc_not_nil _ dirs name)).
    rewrite !str_app_assoc in IH. exact IH.
Qed.

Lemma file_under_closed (top : string) (entries : list (node FileData)) p name c :
  file_under top entries p name c ->
  closed_root top ->
  forallb (@plain_names FileData) entries = true ->
  exists dirs,
    located entries dirs name c /\
    p = String.concat "/" (top :: dirs ++ [name]).
Proof.
  induction 1 as [top entries name c Hin|top entries d es p name c Hin _ IH];
    intros Htop Hpl.
  - pose proof (plain_names_in _ _ Hpl Hin) as Hn. cbn in Hn.
    exists []. split; [constructor; exact Hin|].
    rewrite (@join_closed _ _ Htop Hn). reflexivity.
  - pose proof (plain_names_in _ _ Hpl Hin) as Hn. cbn in Hn.
    apply andb_true_iff in Hn. destruct Hn as [Hd Hes].
    rewrite (@join_closed _ _ Htop Hd) in IH.
    assert (Hc : closed_root (top ++ "/" ++ d)).
    { rewrite <- str_app_assoc. apply closed_after. exact Hd. }
    destruct (IH Hc Hes) as (dirs & Hloc & ->).
    exists (d :: dirs). split; [econstructor; eauto|].
    rewrite (concat_cons "/" _ (@snoc_not_nil _ dirs name)).
    cbn [app]. rewrite (concat_cons "/" top); [|discriminate].
    rewrite (concat_cons "/" d (@snoc_not_nil _ dirs name)).
    rewrite !str_app_assoc. reflexivity.
Qed.

Lemma file_under_open (top : string) (entries : list (node FileData)) p name c :
  open_root top ->
  forallb (@plain_names FileData) entries = true ->
  file_under top entries p name c <->
  exists dirs,
    located entries dirs name c /\
    p = (top ++ String.concat "/" (dirs ++ [name]))%string.
Proof.
  intros Htop Hpl. split.
  - intros H. inversion H as [? ? ? ? Hin|? ? d es ? ? ? Hin Hsub]; subst.
    + pose proof (plain_names_in _ _ Hpl Hin) as Hn. cbn in Hn.
      exists []. split; [constructor; exact Hin|].
      rewrite (@join_open _ _ Htop Hn). reflexivity.
    + pose proof (plain_names_in _ _ Hpl Hin) as Hn. cbn in Hn.
      apply andb_true_iff in Hn. destruct Hn as [Hd Hes].
      rewrite (@join_open _ _ Htop Hd) in Hsub.
      destruct (file_under_closed Hsub (@closed_after top _ Hd) Hes)
        as (dirs & Hloc & ->).
      exists (d :: dirs). split; [econstructor; eauto|].
      rewrite (concat_cons "/" _ (@snoc_not_nil _ dirs name)).
      cbn [app]. rewrite (concat_cons "/" d (@snoc_not_nil _ dirs name)).
      rewrite !str_app_assoc. reflexivity.
  - intros (dirs & Hloc & ->).
    inversion Hloc as [? ? ? Hin|? d es dirs' ? ? Hin Hsub]; subst.
    + pose proof (plain_names_in _ _ Hpl Hin) as Hn. cbn in Hn.
      cbn [app String.concat]. rewrite <- (@join_open _ _ Htop Hn).
      constructor. exact Hin.
    + pose proof (plain_names_in _ _ Hpl Hin) as Hn. cbn in Hn.
      apply andb_true_iff in Hn. destruct Hn as [Hd Hes].
      apply file_below with (d := d) (es := es); [exact Hin|].
      rewrite (@join_open _ _ Htop Hd).
      pose proof (located_closed Hsub (@closed_after top _ Hd) Hes) as Hf.
      rewrite (concat_cons "/" _ (@snoc_not_nil _ dirs' name)) in Hf.
      cbn [app]. rewrite (concat_cons "/" d (@snoc_not_nil _ dirs' name)).
      rewrite !str_app_assoc in Hf. exact Hf.
Qed.

End LocatedFacts.

(** C6. [load_images] walks the tree under the root and keeps exactly
    the files whose name ends in ".jpeg" written in any mix of upper and
    lower case, at any depth, each once. With entry names as a directory
    listing gives them, a file reached through the subdirectories
    d1, ..., dn is collected under the path root/d1/.../dn/name (with no
    separator added after a root that is empty or ends with one). A path
    that is no directory gives no files. *)
Theorem image_files_exact (FileData : Type) (path : string) :
  (forall (entries : list (node FileData)) p c,
      In (p, c) (image_files path (Some entries)) <->
      exists name stem,
        file_under path entries p name c /\
        Str.lower name = (stem ++ ".jpeg")%string) /\
  (forall entries : list (node FileData),
      List.length (image_files path (Some entries)) =
      list_sum (map (@jpeg_count FileData) entries)) /\
  (forall name : string, is_jpeg (Str.lower name) = is_jpeg name) /\
  image_files path (@None (list (node FileData))) = [] /\
  (forall name : string,
      is_jpeg name = true <->
      exists stem ext, name = (stem ++ ext)%string /\ jpeg_spelling ext) /\
  (forall entries : list (node FileData),
      forallb (@plain_names FileData) entries = true ->
      closed_root path ->
      forall p c,
        In (p, c) (image_files path (Some entries)) <->
        exists dirs stem ext,
          located entries dirs (stem ++ ext) c /\
          jpeg_spelling ext /\
          p = String.concat "/" (path :: dirs ++ [(stem ++ ext)%string])) /\
  (forall entries : list (node FileData),
      forallb (@plain_names FileData) entries = true ->
      open_root path ->
      forall p c,
        In (p, c) (image_files path (Some entries)) <->
        exists dirs stem ext,
          located entries dirs (stem ++ ext) c /\
          jpeg_spelling ext /\
          p = (path ++ String.concat "/" (dirs ++ [(stem ++ ext)%string]))%string).
Proof.
  split; [|split; [|split; [|split; [|split; [|split]]]]].
  - intros entries p c. unfold image_files, os_walk. rewrite in_walk_dir.
    split.
    + intros (name & Hu & Hj). apply endswith_spec in Hj.
      destruct Hj as [stem Hj]. exists name, stem. auto.
    + intros (name & stem & Hu & Hj). exists name. split; [exact Hu|].
      apply endswith_spec. exists stem. exact Hj.
  - intros entries. apply length_walk_dir.
  - intros name. unfold is_jpeg. rewrite lower_idem. reflexivity.
  - reflexivity.
  - apply is_jpeg_spelling.
  - intros entries Hpl Hroot p c. unfold image_files, os_walk.
    rewrite in_walk_dir. split.
    + intros (name & Hu & Hj).
      destruct (file_under_closed Hu Hroot Hpl) as (dirs & Hloc & ->).
      apply is_jpeg_spelling in Hj. destruct Hj as (stem & ext & -> & Hsp).
      exists dirs, stem, ext. auto.
    + intros (dirs & stem & ext & Hloc & Hsp & ->).
      exists (stem ++ ext)%string. split.
      * apply located_closed; assumption.
      * apply is_jpeg_spelling. exists stem, ext. auto.
  - intros entries Hpl Hroot p c. unfold image_files, os_walk.
    rewrite in_walk_dir. split.
    + intros (name & Hu & Hj).
      apply (@file_under_open _ _ _ _ _ _ Hroot Hpl) in Hu.
      destruct Hu as (dirs & Hloc & ->).
      apply is_jpeg_spelling in Hj. destruct Hj as (stem & ext & -> & Hsp).
      exists dirs, stem, ext. auto.
    + intros (dirs & stem & ext & Hloc & Hsp & ->).
      exists (stem ++ ext)%string. split.
      * apply (@file_under_open _ _ _ _ _ _ Hroot Hpl). exists dirs. auto.
      * apply is_jpeg_spelling. exists stem, ext. auto.
Qed.

Lemma image_files_exact_witness :
  forallb (@plain_names (option nat)) Demo.tree = true /\
  closed_root "data" /\
  In ("data/cats/deep/D.JpEg"%string, Some 4%nat)
     (image_files "data" (Some Demo.tree)) /\
  open_root "data/" /\
  In ("data/cats/b.jpeg"%string, Some 2%nat)
     (image_files "data/" (Some Demo.tree)).
Proof.
  assert (Hpl : forallb (@plain_names (option nat)) Demo.tree = true)
    by reflexivity.
  assert (Hc : closed_root "data").
  { split; [discriminate|]. intros r H.
    destruct r as [|c0 [|c1 [|c2 [|c3 r]]]]; try discriminate H.
    destruct r; discriminate H. }
  assert (Ho : open_root "data/") by (right; exists "data"%string; reflexivity).
  assert (Hsp1 : jpeg_spelling ".JpEg").
  { exists "J"%char, "p"%char, "E"%char, "g"%char. repeat split; auto. }
  assert (Hsp2 : jpeg_spelling ".jpeg").
  { exists "j"%char, "p"%char, "e"%char, "g"%char. repeat split; auto. }
  destruct (image_files_exact (option nat) "data")
    as (_ & _ & _ & _ & _ & Hclosed & _).
  destruct (image_files_exact (option nat) "data/")
    as (_ & _ & _ & _ & _ & _ & Hopen).
  split; [exact Hpl|]. split; [exact Hc|]. split.
  - apply (Hclosed Demo.tree Hpl Hc).
    exists ["cats"; "deep"]%string, "D"%string, ".JpEg"%string.
    split; [|split; [exact Hsp1|reflexivity]].
    eapply located_below; [right; right; left; reflexivity|].
    eapply located_below; [right; right; left; reflexivity|].
    apply located_here. left. reflexivity.
  - split; [exact Ho|]. apply (Hopen Demo.tree Hpl Ho).
    exists ["cats"]%string, "b"%string, ".jpeg"%string.
    split; [|split; [exact Hsp2|reflexivity]].
    eapply located_below; [right; right; left; reflexivity|].
    apply located_here. left. reflexivity.
Defined.

Example image_files_demo :
  map fst (image_files "data" (Some Demo.tree)) =
  ["data/a.JPEG"; "data/cats/b.jpeg"; "data/cats/deep/D.JpEg"]%string.
Proof. reflexivity. Qed.

Section DatasetFacts.
Variables FileData Picture Sample : Type.
Variable Image_open_convert : FileData -> result Picture.
Variable transform : Z * Z -> Picture -> Sample.

Lemma image_files_none (path : string) (at_path : option (list (node FileData))) :
  matching_files at_path = 0%nat -> image_files path at_path = [].
Proof.
  intros H. apply length_zero_iff_nil. destruct at_path as [entries|].
  - unfold image_files, os_walk. rewrite length_walk_dir. exact H.
  - reflexivity.
Qed.

Lemma getitem_empty (ds : IJEPADataset Sample) (index : Z) :
  data ds = [] -> IJEPADataset_getitem ds index = Raise IndexError.
Proof.
  intros H. unfold IJEPADataset_getitem, IJEPADataset_len. rewrite H.
  cbn [List.length Z.of_nat]. rewrite Z.add_0_r.
  destruct (index <? 0)%Z eqn:E; rewrite ?E; [reflexivity|].
  destruct (Z.to_nat index); reflexivity.
Qed.

(** C5, as the code has it. A root with no file whose lowercased name
    ends in ".jpeg" (or a path that is no directory) makes the constructor
    return normally, with an empty [data] list: the length is 0, and only
    a later index into the dataset raises. *)
Theorem empty_corpus_builds (path stage : string) (size : Z * Z)
  (at_path : option (list (node FileData))) :
  matching_files at_path = 0%nat ->
  IJEPADataset_init Image_open_convert transform path stage size at_path =
    Ok {| dataset_path := path; img_size := size; data := [] |} /\
  (forall ds,
      IJEPADataset_init Image_open_convert transform path stage size at_path =
        Ok ds ->
      IJEPADataset_len ds = 0%Z /\
      forall index, IJEPADataset_getitem ds index = Raise IndexError).
Proof.
  intros H.
  assert (E : IJEPADataset_init Image_open_convert transform path stage size
                at_path =
              Ok {| dataset_path := path; img_size := size; data := [] |}).
  { unfold IJEPADataset_init, load_images.
    rewrite (image_files_none path at_path H). reflexivity. }
  split; [exact E|]. intros ds Hds. rewrite E in Hds. inversion Hds; subst ds.
  split; [reflexivity|]. intros index. apply getitem_empty. reflexivity.
Qed.

End DatasetFacts.

Lemma empty_corpus_builds_witness :
  matching_files (Some Demo.no_images) = 0%nat /\
  IJEPADataset_init Demo.open_convert Demo.transform "corpus" "train"
    (224, 224)%Z (Some Demo.no_images) =
  Ok {| dataset_path := "corpus"; img_size := (224, 224)%Z; data := [] |}.
Proof.
  split; [reflexivity|].
  apply (empty_corpus_builds Demo.open_convert Demo.transform "corpus" "train"
           (224, 224)%Z (Some Demo.no_images)).
  reflexivity.
Defined.

(** C5 as stated fails: a directory without any matching file gives a
    dataset of length zero, with no exception, both from the constructor
    and from [setup]. *)
Lemma empty_corpus_no_error :
  matching_files (Some Demo.no_images) = 0%nat /\
  (exists ds,
      IJEPADataset_init Demo.open_convert Demo.transform "corpus" "train"
        (224, 224)%Z (Some Demo.no_images) = Ok ds /\
      IJEPADataset_len ds = 0%Z) /\
  (forall e,
      IJEPADataset_init Demo.open_convert Demo.transform "corpus" "train"
        (224, 224)%Z (Some Demo.no_images) <> Raise e) /\
  (forall e,
      setup Demo.open_convert Demo.transform
        (D2VDataModule_init _ "corpus" "corpus" 16 4 true true)
        (fun _ => Some Demo.no_images) <> Raise e).
Proof.
  split; [reflexivity|]. split; [|split].
  - eexists. split; reflexivity.
  - intros e. discriminate.
  - intros e. discriminate.
Qed.

(** *** The momentum update, element by element *)

Lemma add_mul_elements (m : Q) (t : Tensor) : forall s : Tensor,
  List.length s = List.length t ->
  exists t', add_ (mul_ t m) s (1 - m) = Ok t' /\
    List.length t' = List.length t /\
    forall j sj tj, nth_error s j = Some sj -> nth_error t j = Some tj ->
      exists v, nth_error t' j = Some v /\ v == ema m tj sj.
Proof.
  induction t as [|x t IH]; intros [|y s] Hlen; try discriminate.
  - exists []. split; [reflexivity|]. split; [reflexivity|].
    intros [|j] sj tj H; discriminate.
  - injection Hlen as Hlen. destruct (IH s Hlen) as (t' & E & Hl & Hnth).
    exists (x * m + (1 - m) * y :: t'). cbn [mul_ map add_]. fold (mul_ t m).
    rewrite E. split; [reflexivity|]. split; [cbn [List.length]; congruence|].
    intros [|j] sj tj Hs Ht; cbn [nth_error] in *.
    + injection Hs as <-. injection Ht as <-. eexists. split; [reflexivity|].
      unfold ema. ring.
    + apply (Hnth j); assumption.
Qed.

Lemma momentum_loop_elements (m : Q) (ss : list Tensor) : forall ts : list Tensor,
  shapes_match ss ts = true ->
  exists ts', momentum_loop m ss ts = Ok ts' /\
    List.length ts' = List.length ts /\
    (forall i, (List.length ss <= i)%nat -> nth_error ts' i = nth_error ts i) /\
    forall i s t, nth_error ss i = Some s -> nth_error ts i = Some t ->
      exists t', nth_error ts' i = Some t' /\
        List.length t' = List.length t /\
        forall j sj tj, nth_error s j = Some sj -> nth_error t j = Some tj ->
          exists v, nth_error t' j = Some v /\ v == ema m tj sj.
Proof.
  induction ss as [|s ss IH]; intros ts Hs.
  - exists ts. split; [destruct ts; reflexivity|]. split; [reflexivity|].
    split; [reflexivity|]. intros [|i] s t H; discriminate.
  - destruct ts as [|t ts].
    + exists []. split; [reflexivity|]. split; [reflexivity|].
      split; [reflexivity|]. intros [|i] s0 t0 _ H; discriminate.
    + cbn [shapes_match] in Hs. apply andb_true_iff in Hs. destruct Hs as [Hl Hs].
      apply Nat.eqb_eq in Hl.
      destruct (add_mul_elements m t s Hl) as (t' & Et & Hlt & Ht).
      destruct (IH ts Hs) as (ts' & Ets & Hlts & Hrest & Hts).
      exists (t' :: ts'). cbn [momentum_loop]. rewrite Et. cbn [bind].
      rewrite Ets. cbn [bind]. split; [reflexivity|].
      split; [cbn [List.length]; congruence|]. split.
      * intros [|i] Hi; cbn [List.length] in Hi; [lia|]. cbn [nth_error].
        apply Hrest. lia.
      * intros [|i] s0 t0 H0 H1; cbn [nth_error] in *.
        -- injection H0 as <-. injection H1 as <-. exists t'. auto.
        -- apply (Hts i); assumption.
Qed.

Lemma Forall2_of_nth {A B : Type} (R : A -> B -> Prop) : forall (a : list A) (b : list B),
  List.length a = List.length b ->
  (forall j x y, nth_error a j = Some x -> nth_error b j = Some y -> R x y) ->
  Forall2 R a b.
Proof.
  induction a as [|x a IH]; intros [|y b] Hl H; try discriminate; constructor.
  - apply (H O); reflexivity.
  - apply IH; [injection Hl; auto|]. intros j. apply (H (S j)).
Qed.

Lemma shapes_match_nth : forall (i : nat) (ss ts : list Tensor) (s t : Tensor),
  shapes_match ss ts = true ->
  nth_error ss i = Some s -> nth_error ts i = Some t ->
  List.length s = List.length t.
Proof.
  induction i as [|i IH]; intros [|s0 ss] [|t0 ts] s t H Es Et;
    try discriminate; cbn [nth_error shapes_match] in *;
    apply andb_true_iff in H; destruct H as [H0 H].
  - injection Es as ->. injection Et as ->. apply Nat.eqb_eq. exact H0.
  - eapply IH; eauto.
Qed.

Lemma tensor_eq_refl (a : Tensor) : tensor_eq a a.
Proof. induction a; constructor; [reflexivity|assumption]. Qed.

Lemma update_momentum_run (self : IJEPA.t) (m : Q) (ts' : list Tensor) :
  momentum_loop m (parameters (student_encoder (IJEPA.model self)))
                  (parameters (teacher_encoder (IJEPA.model self))) = Ok ts' ->
  update_momentum self m =
  Ok (IJEPA.set_model self
        {| student_encoder := eval (student_encoder (IJEPA.model self));
           teacher_encoder :=
             set_parameters (eval (teacher_encoder (IJEPA.model self))) ts';
           mode := mode (IJEPA.model self) |}).
Proof.
  intros E. unfold update_momentum. cbn [eval parameters]. rewrite E. reflexivity.
Qed.



(** *** The momentum loop in IEEE arithmetic *)





Section FormatFacts.
Variables prec emax : Z.
Variable k : positive.




Lemma finite_valid (x : spec_float) :
  IEEE.finite prec emax x = true -> valid_binary prec emax x = true.
Proof. destruct x; intros H; try discriminate; try reflexivity; exact H. Qed.

Hypothesis Hone : IEEE.of_python_float prec emax (SFone 53 1024) = IEEE.one k.



End FormatFacts.

Section IEEELoopFacts.
Variables prec emax : Z.
Variable k : positive.
Hypothesis Hone : IEEE.of_python_float prec emax (SFone 53 1024) = IEEE.one k.







End IEEELoopFacts.




Example one_in_each_format :
  IEEE.of_python_float 11 16 (SFone 53 1024) = IEEE.one 10 /\
  IEEE.of_python_float 8 128 (SFone 53 1024) = IEEE.one 7 /\
  IEEE.of_python_float 24 128 (SFone 53 1024) = IEEE.one 23 /\
  IEEE.of_python_float 53 1024 (SFone 53 1024) = IEEE.one 52.
Proof. repeat split. Qed.

Example momentum_loop_one_demo :
  IEEE.momentum_loop 24 128 (SFone 53 1024) Demo.float_students
    Demo.float_teachers =
  Ok Demo.float_teachers /\
  IEEE.momentum_loop 24 128 (SFone 53 1024) [[Demo.f2_5]] [[S754_zero true]] =
  Ok [[S754_zero false]].
Proof. split; reflexivity. Qed.

(** *** The schedule of m *)

Lemma add_length (alpha : Q) : forall a b r : Tensor,
  add_ a b alpha = Ok r -> List.length r = List.length a.
Proof.
  induction a as [|x a IH]; intros [|y b] r H; try discriminate.
  - injection H as <-. reflexivity.
  - cbn [add_] in H. destruct (add_ a b alpha) as [r0|] eqn:E; [|discriminate].
    injection H as <-. cbn [List.length]. f_equal. eapply IH; eauto.
Qed.

Lemma momentum_loop_shapes (m : Q) : forall ss ts ts' : list Tensor,
  momentum_loop m ss ts = Ok ts' ->
  map (@List.length Q) ts' = map (@List.length Q) ts.
Proof.
  induction ss as [|s ss IH]; intros ts ts' H.
  - destruct ts; injection H as <-; reflexivity.
  - destruct ts as [|t ts]; [injection H as <-; reflexivity|].
    cbn [momentum_loop] in H.
    destruct (add_ (mul_ t m) s (1 - m)) as [t'|] eqn:Et; [|discriminate].
    cbn [bind] in H.
    destruct (momentum_loop m ss ts) as [rest|] eqn:Er; [|discriminate].
    injection H as <-. cbn [map]. f_equal.
    + rewrite (add_length _ _ _ Et). unfold mul_. apply length_map.
    + eapply IH; eauto.
Qed.

Lemma shapes_match_lengths : forall ss ts ts' : list Tensor,
  map (@List.length Q) ts' = map (@List.length Q) ts ->
  shapes_match ss ts' = shapes_match ss ts.
Proof.
  induction ss as [|s ss IH]; intros ts ts' H; [reflexivity|].
  destruct ts as [|t ts], ts' as [|t' ts']; try discriminate; [reflexivity|].
  cbn [map] in H. injection H as H0 H. cbn [shapes_match].
  rewrite H0, (IH _ _ H). reflexivity.
Qed.











Example schedule_demo :
  exists s1 s2 s3 s4,
    on_after_backward_times 1 Demo.self0 = Ok s1 /\
    on_after_backward_times 2 Demo.self0 = Ok s2 /\
    on_after_backward_times 3 Demo.self0 = Ok s3 /\
    on_after_backward_times 4 Demo.self0 = Ok s4 /\
    IJEPA.m s1 == 997 # 1000 /\ IJEPA.m s2 == 998 # 1000 /\
    IJEPA.m s3 == 999 # 1000 /\ IJEPA.m s4 == 1.
Proof.
  do 4 eexists. repeat (split; [vm_compute; reflexivity|]).
  vm_compute. reflexivity.
Qed.

(** In binary64 the default schedule over 1000 planned steps never
    decreases and ends within 1/1000 of m_end, a little above it. *)
Example binary64_schedule_1000 :
  let trace := Binary64.m_trace 1000 0.996 1 1000 0.996 in
  Binary64.nondecreasing trace = true /\
  last trace 0%float = 1.000000000000004%float /\
  (abs (last trace 0 - 1) <? 0.001)%float = true.
Proof. vm_compute. repeat split. Qed.

(** *** The step methods *)

Section StepFacts.
Variable Gen : Type.
Variable uniform : Q -> Q -> Gen -> Q * Gen.
Variables Batch Output : Type.
Variable network :
  IJEPA_base -> Batch -> Q -> Q -> Q -> Q -> Gen -> result (Output * Gen).
Variable unpack2 : Output -> result (Tensor * Tensor).
Variable criterion : Tensor -> Tensor -> Q.

Ltac draw_all :=
  repeat match goal with
         | |- context [uniform ?lo ?hi ?g] =>
             let v := fresh "v" in
             let g' := fresh "g" in
             destruct (uniform lo hi g) as [v g']; cbn [fst snd]
         end.

(** C4. A training step draws three numbers from the generator, one
    after the other and each once: the target aspect ratio between the
    ends of [target_aspect_ratio], the target scale between the ends of
    [target_scale], the context scale between the ends of
    [context_scale]. The context aspect ratio is the configured value, not
    a draw. The network is then called once, on the whole batch, with
    these four numbers, whatever the batch holds. *)
Theorem training_step_samples_once (self : IJEPA.t) (batch : Batch)
  (batch_idx : Z) (g : Gen) :
  let target_aspect_ratio :=
    uniform (fst (IJEPA.target_aspect_ratio self))
            (snd (IJEPA.target_aspect_ratio self)) g in
  let target_scale :=
    uniform (fst (IJEPA.target_scale self))
            (snd (IJEPA.target_scale self)) (snd target_aspect_ratio) in
  let context_scale :=
    uniform (fst (IJEPA.context_scale self))
            (snd (IJEPA.context_scale self)) (snd target_scale) in
  training_step uniform network unpack2 criterion self batch batch_idx g =
  bind (network (IJEPA.model self) batch
          (fst target_aspect_ratio) (fst target_scale)
          (IJEPA.context_aspect_ratio self) (fst context_scale)
          (snd context_scale))
    (fun og =>
       bind (unpack2 (fst og))
         (fun ys =>
            Ok (criterion (fst ys) (snd ys),
                IJEPA.log self "train_loss" (criterion (fst ys) (snd ys)),
                snd og))).
Proof.
  cbv zeta. unfold training_step, forward. draw_all. reflexivity.
Qed.

(** C7. On the same module, batch and generator a validation step draws
    the same masking numbers, makes the same network call and computes
    the same loss as a training step; it ends in the same way (same
    exception, or same loss and generator); it returns the module with
    [m] and the whole network, teacher parameters included, as they were,
    and only "val_loss" added to the log. A validation batch of the loop
    runs nothing else: no backward pass, no [on_after_backward]. *)
Theorem validation_step_frame (self : IJEPA.t) (batch : Batch)
  (batch_idx : Z) (g : Gen) (history : list event) :
  match training_step uniform network unpack2 criterion self batch batch_idx g,
        validation_step uniform network unpack2 criterion self batch batch_idx g
  with
  | Ok (train_loss, self_t, g_t), Ok (val_loss, self_v, g_v) =>
      val_loss = train_loss /\ g_v = g_t /\
      self_t = IJEPA.log self "train_loss" train_loss /\
      self_v = IJEPA.log self "val_loss" val_loss /\
      IJEPA.m self_v = IJEPA.m self /\
      IJEPA.model self_v = IJEPA.model self /\
      parameters (teacher_encoder (IJEPA.model self_v)) =
        parameters (teacher_encoder (IJEPA.model self)) /\
      validation_batch uniform network unpack2 criterion
        {| module := self; generator := g; events := history |}
        batch batch_idx =
      Ok {| module := self_v; generator := g_v;
            events := (history ++ [EvValidationStep])%list |}
  | Raise e_t, Raise e_v =>
      e_v = e_t /\
      validation_batch uniform network unpack2 criterion
        {| module := self; generator := g; events := history |}
        batch batch_idx = Raise e_v
  | _, _ => False
  end.
Proof.
  unfold validation_batch. cbn [module generator events].
  unfold training_step, validation_step, forward. draw_all.
  destruct (network _ _ _ _ _ _ _) as [[out g3]|e]; cbn [bind fst snd];
    [|split; reflexivity].
  destruct (unpack2 out) as [[ys yt]|e]; cbn [bind fst snd];
    [|split; reflexivity].
  repeat split.
Qed.

(** C10. [predict_step] draws the target aspect ratio and the target
    scale as the other steps do, passes 1 as the context scale whatever
    [context_scale] is configured, and sets the network's [mode] to
    "test" before the call; the module it leaves behind still has that
    mode. *)
Theorem predict_step_full_context (self : IJEPA.t) (batch : Batch)
  (batch_idx dataloader_idx : Z) (g : Gen) :
  let target_aspect_ratio :=
    uniform (fst (IJEPA.target_aspect_ratio self))
            (snd (IJEPA.target_aspect_ratio self)) g in
  let target_scale :=
    uniform (fst (IJEPA.target_scale self))
            (snd (IJEPA.target_scale self)) (snd target_aspect_ratio) in
  let tested := IJEPA.set_model self (set_mode (IJEPA.model self) "test") in
  predict_step uniform network self batch batch_idx dataloader_idx g =
    bind (network (set_mode (IJEPA.model self) "test") batch
            (fst target_aspect_ratio) (fst target_scale)
            (IJEPA.context_aspect_ratio self) 1 (snd target_scale))
      (fun og => Ok (fst og, tested, snd og)) /\
  mode (IJEPA.model tested) = "test"%string /\
  student_encoder (IJEPA.model tested) = student_encoder (IJEPA.model self) /\
  teacher_encoder (IJEPA.model tested) = teacher_encoder (IJEPA.model self) /\
  forall other_scale : Q * Q,
    predict_step uniform network (IJEPA.set_context_scale self other_scale)
      batch batch_idx dataloader_idx g =
    bind (predict_step uniform network self batch batch_idx dataloader_idx g)
      (fun r => Ok (fst (fst r),
                    IJEPA.set_context_scale (snd (fst r)) other_scale,
                    snd r)).
Proof.
  cbv zeta. split; [|split; [|split; [|split]]]; try reflexivity.
  - unfold predict_step, forward. draw_all. reflexivity.
  - intros other_scale. unfold predict_step, forward.
    cbn [IJEPA.set_context_scale IJEPA.target_aspect_ratio
         IJEPA.target_scale IJEPA.context_aspect_ratio IJEPA.model
         IJEPA.set_model].
    draw_all.
    destruct (network _ _ _ _ _ _ _) as [[out g3]|e]; reflexivity.
Qed.

End StepFacts.

Example training_step_draws_three :
  exists loss self' state,
    training_step Demo.uniform Demo.network Demo.unpack2 Demo.criterion
      Demo.self0 Demo.batch0 0 (7%Z, 0%nat) = Ok (loss, self', (state, 3%nat)) /\
    training_step Demo.uniform Demo.network Demo.unpack2 Demo.criterion
      Demo.self0 [] 0 (7%Z, 0%nat) = Ok (loss, self', (state, 3%nat)).
Proof. do 3 eexists. split; vm_compute; reflexivity. Qed.

Example predict_step_demo :
  exists out self' g',
    predict_step Demo.uniform Demo.network Demo.self0 Demo.batch0 0 0
      (7%Z, 0%nat) = Ok (out, self', g') /\
    mode (IJEPA.model self') = "test"%string /\
    snd g' = 2%nat /\
    IJEPA.context_scale Demo.self0 = (85 # 100, 1) /\
    exists y, out = [y] /\ last y 0 = 1.
Proof.
  do 3 eexists. split; [vm_compute; reflexivity|].
  repeat split. eexists. split; reflexivity.
Qed.

(** *** The order of a training batch *)

Section LoopFacts.
Variable Gen : Type.
Variable uniform : Q -> Q -> Gen -> Q * Gen.
Variables Batch Output : Type.
Variable network :
  IJEPA_base -> Batch -> Q -> Q -> Q -> Q -> Gen -> result (Output * Gen).
Variable unpack2 : Output -> result (Tensor * Tensor).
Variable criterion : Tensor -> Tensor -> Q.
Variable Grad : Type.
Variable backward : IJEPA_base -> Q -> Grad.
Variable optimizer_step : Grad -> IJEPA_base -> IJEPA_base.

(** C3, as the code has it. The momentum update sits in the hook
    [on_after_backward]: in a training batch it runs after the backward
    pass and before the optimizer step, with the student parameters the
    forward pass saw, and the increment of m follows it at once. When the
    step and the hook succeed, the batch succeeds, its events are
    training step, backward, momentum update, increment of m, optimizer
    step, scheduler step, and the optimizer works on the network that
    already holds the updated teacher. *)
Theorem momentum_update_before_optimizer (w : Loop Gen) (batch : Batch)
  (batch_idx : Z) (loss : Q) (self1 self2 : IJEPA.t) (g1 : Gen) :
  training_step uniform network unpack2 criterion (module w) batch batch_idx
    (generator w) = Ok (loss, self1, g1) ->
  on_after_backward self1 = Ok self2 ->
  training_batch uniform network unpack2 criterion backward optimizer_step
    w batch batch_idx =
  Ok {| module :=
          IJEPA.set_model self2
            (optimizer_step (backward (IJEPA.model self1) loss)
               (IJEPA.model self2));
        generator := g1;
        events := (events w ++
                   [EvTrainingStep; EvBackward; EvMomentumUpdate;
                    EvMomentumIncrement; EvOptimizerStep; EvSchedulerStep])%list
     |} /\
  update_momentum self1 (IJEPA.m self1) =
    Ok (IJEPA.set_m self2 (IJEPA.m self1)) /\
  parameters (student_encoder (IJEPA.model self2)) =
    parameters (student_encoder (IJEPA.model (module w))) /\
  position EvMomentumUpdate
    [EvTrainingStep; EvBackward; EvMomentumUpdate;
     EvMomentumIncrement; EvOptimizerStep; EvSchedulerStep] = Some 2%nat /\
  position EvOptimizerStep
    [EvTrainingStep; EvBackward; EvMomentumUpdate;
     EvMomentumIncrement; EvOptimizerStep; EvSchedulerStep] = Some 4%nat.
Proof.
  intros Hstep Hhook. split; [|split; [|split; [|split; reflexivity]]].
  - unfold training_batch. rewrite Hstep. cbn [bind]. rewrite Hhook.
    reflexivity.
  - unfold on_after_backward in Hhook.
    destruct (update_momentum self1 (IJEPA.m self1)) as [s|e] eqn:E;
      [|discriminate].
    cbn [bind] in Hhook.
    assert (Hm : IJEPA.m s = IJEPA.m self1).
    { unfold update_momentum in E.
      destruct (momentum_loop _ _ _) as [ts|]; [|discriminate].
      injection E as <-. reflexivity. }
    destruct (IJEPA.trainer s) as [tr|]; [|discriminate].
    destruct (truediv _ _) as [step|]; [|discriminate].
    injection Hhook as <-. rewrite <- Hm. destruct s; reflexivity.
  - assert (Hs1 : IJEPA.model self1 = IJEPA.model (module w)).
    { revert Hstep. unfold training_step, forward.
      destruct (uniform _ _ (generator w)) as [a ga].
      destruct (uniform _ _ ga) as [b gb].
      destruct (uniform _ _ gb) as [c gc].
      destruct (network _ _ _ _ _ _ _) as [[out g3]|e]; [|discriminate].
      cbn [bind fst snd]. destruct (unpack2 out) as [ys|e]; [|discriminate].
      cbn [bind]. intros H. injection H as _ <- _. reflexivity. }
    rewrite <- Hs1. unfold on_after_backward in Hhook.
    unfold update_momentum in Hhook.
    destruct (momentum_loop _ _ _) as [ts|]; [|discriminate].
    cbn [bind IJEPA.trainer IJEPA.set_model] in Hhook.
    destruct (IJEPA.trainer self1) as [tr|]; [|discriminate].
    destruct (truediv _ _) as [step|]; [|discriminate].
    injection Hhook as <-. reflexivity.
Qed.

End LoopFacts.

Lemma momentum_update_before_optimizer_witness :
  exists w',
    training_batch Demo.uniform Demo.network Demo.unpack2 Demo.criterion
      Demo.backward Demo.optimizer_step Demo.loop0 Demo.batch0 0 = Ok w' /\
    events w' = [EvTrainingStep; EvBackward; EvMomentumUpdate;
                 EvMomentumIncrement; EvOptimizerStep; EvSchedulerStep].
Proof.
  destruct (training_step Demo.uniform Demo.network Demo.unpack2
              Demo.criterion (module Demo.loop0) Demo.batch0 0
              (generator Demo.loop0)) as [[[loss self1] g1]|e] eqn:Hstep;
    [|vm_compute in Hstep; discriminate].
  destruct (on_after_backward self1) as [self2|e] eqn:Hhook.
  - eexists. split.
    + apply (momentum_update_before_optimizer Demo.uniform Demo.network
               Demo.unpack2 Demo.criterion Demo.backward Demo.optimizer_step
               Demo.loop0 Demo.batch0 0 Hstep Hhook).
    + reflexivity.
  - vm_compute in Hstep. injection Hstep as <- <- <-.
    vm_compute in Hhook. discriminate.
Defined.

(** C3 as stated fails. On the demonstration loop the batch puts the
    momentum update (position 2) before the optimizer step (position 4),
    so the events the specification orders do not come in its order; and
    the teacher ends at 0.996 * teacher + 0.004 * student with the student
    of before the optimizer step (first element 0.004), where the order of
    the specification would use the stepped student (0.008). *)
Lemma momentum_update_not_after_optimizer :
  exists w' w_spec,
    training_batch Demo.uniform Demo.network Demo.unpack2 Demo.criterion
      Demo.backward Demo.optimizer_step Demo.loop0 Demo.batch0 0 = Ok w' /\
    spec_training_batch Demo.uniform Demo.network Demo.unpack2 Demo.criterion
      Demo.backward Demo.optimizer_step Demo.loop0 Demo.batch0 0 = Ok w_spec /\
    position EvMomentumUpdate (events w') = Some 2%nat /\
    position EvOptimizerStep (events w') = Some 4%nat /\
    ordered_events (events w') <> spec_training_order /\
    ordered_events (events w_spec) = spec_training_order /\
    nth 0 (Demo.flatten
             (parameters (teacher_encoder (IJEPA.model (module w'))))) 0
      == 4 # 1000 /\
    nth 0 (Demo.flatten
             (parameters (teacher_encoder (IJEPA.model (module w_spec))))) 0
      == 8 # 1000.
Proof.
  do 2 eexists. split; [vm_compute; reflexivity|].
  split; [vm_compute; reflexivity|].
  split; [reflexivity|]. split; [reflexivity|].
  split; [vm_compute; discriminate|]. split; [reflexivity|].
  split; vm_compute; reflexivity.
Qed.

(** *** The number of tokens *)

Section ConstructionFacts.
Variable IJEPA_base_new : Z -> Z -> Z -> Z -> Z -> Z -> Z -> Z -> result IJEPA_base.

(** C9, as the code has it. When the network is built and [patch_size] is
    not zero, the constructor succeeds with
    [num_tokens = (img_size // patch_size) ** 2], the square of the floor
    quotient; this is the square of the exact quotient
    img_size / patch_size when [patch_size] divides [img_size]. *)
Theorem num_tokens_floor (hp : Hparams.t) (net : IJEPA_base) :
  IJEPA_base_new (Hparams.img_size hp) (Hparams.patch_size hp)
    (Hparams.in_chans hp) (Hparams.embed_dim hp) (Hparams.enc_depth hp)
    (Hparams.enc_heads hp) (Hparams.decoder_depth hp) (Hparams.M hp) = Ok net ->
  Hparams.patch_size hp <> 0%Z ->
  exists self,
    IJEPA_init IJEPA_base_new hp = Ok self /\
    IJEPA.num_tokens self =
      ((Hparams.img_size hp / Hparams.patch_size hp) ^ 2)%Z /\
    ((Hparams.patch_size hp | Hparams.img_size hp)%Z ->
     inject_Z (IJEPA.num_tokens self) ==
     (inject_Z (Hparams.img_size hp) / inject_Z (Hparams.patch_size hp)) ^ 2).
Proof.
  intros Hnet Hnz. unfold IJEPA_init. rewrite Hnet. cbn [bind].
  unfold floordiv. destruct (Z.eqb_spec (Hparams.patch_size hp) 0) as [|_];
    [contradiction|].
  cbn [bind]. eexists. split; [reflexivity|]. cbn [IJEPA.num_tokens].
  split; [reflexivity|].
  intros [k Hk]. rewrite Hk, Z.div_mul by exact Hnz.
  rewrite inject_Z_mult.
  change (k ^ 2)%Z with (k * (k * 1))%Z. rewrite Z.mul_1_r, inject_Z_mult.
  assert (Hq : ~ inject_Z (Hparams.patch_size hp) == 0).
  { change 0 with (inject_Z 0). rewrite inject_Z_injective. exact Hnz. }
  change ((inject_Z k * inject_Z (Hparams.patch_size hp) /
           inject_Z (Hparams.patch_size hp)) ^ 2)
    with ((inject_Z k * inject_Z (Hparams.patch_size hp) /
           inject_Z (Hparams.patch_size hp)) *
          (inject_Z k * inject_Z (Hparams.patch_size hp) /
           inject_Z (Hparams.patch_size hp))).
  field. exact Hq.
Qed.

End ConstructionFacts.

Lemma num_tokens_floor_witness :
  Hparams.patch_size Hparams.default <> 0%Z /\
  (Hparams.patch_size Hparams.default | Hparams.img_size Hparams.default)%Z /\
  exists self,
    IJEPA_init Demo.IJEPA_base_new Hparams.default = Ok self /\
    IJEPA.num_tokens self = 196%Z /\
    inject_Z (IJEPA.num_tokens self) == (inject_Z 224 / inject_Z 16) ^ 2.
Proof.
  assert (Hnz : Hparams.patch_size Hparams.default <> 0%Z) by discriminate.
  assert (Hdiv : (Hparams.patch_size Hparams.default |
                  Hparams.img_size Hparams.default)%Z)
    by (exists 14%Z; reflexivity).
  split; [exact Hnz|]. split; [exact Hdiv|].
  destruct (@num_tokens_floor Demo.IJEPA_base_new Hparams.default Demo.net0
              eq_refl Hnz) as (self & E & Hn & Hq).
  exists self. split; [exact E|]. split; [rewrite Hn; reflexivity|].
  exact (Hq Hdiv).
Defined.

(** C9 as stated fails when [patch_size] does not divide [img_size]:
    with 225 and 16 the constructor stores 14 ** 2 = 196, and (225/16)
    squared is 50625/256. *)
Lemma num_tokens_not_exact_quotient :
  exists self,
    IJEPA_init Demo.IJEPA_base_new Demo.hparams_225 = Ok self /\
    IJEPA.num_tokens self = 196%Z /\
    ~ inject_Z (IJEPA.num_tokens self) ==
      (inject_Z (Hparams.img_size Demo.hparams_225) /
       inject_Z (Hparams.patch_size Demo.hparams_225)) ^ 2.
Proof.
  eexists. split; [reflexivity|]. split; [reflexivity|].
  vm_compute. discriminate.
Qed.

Example patch_size_zero_raises :
  floordiv 224 0 = Raise ZeroDivisionError.
Proof. reflexivity. Qed.

(** *** Loading: which files are opened, and what a failure does *)

Lemma mapM_all_ok {A B : Type} (f : A -> result B) : forall l : list A,
  (forall x, In x l -> exists y, f x = Ok y) ->
  exists ys, mapM f l = Ok ys /\
    List.length ys = List.length l /\
    forall i x, nth_error l i = Some x ->
      exists y, f x = Ok y /\ nth_error ys i = Some y.
Proof.
  induction l as [|a l IH]; intros H.
  - exists []. split; [reflexivity|]. split; [reflexivity|].
    intros [|i] x Hx; discriminate.
  - destruct (H a (or_introl eq_refl)) as [b Hb].
    destruct (IH (fun x Hx => H x (or_intror Hx))) as (ys & E & Hl & Hn).
    exists (b :: ys). cbn [mapM]. rewrite Hb. cbn [bind]. rewrite E.
    split; [reflexivity|]. split; [cbn; lia|].
    intros [|i] x Hx; cbn [nth_error] in *.
    + injection Hx as <-. exists b. auto.
    + apply Hn. exact Hx.
Qed.

Lemma mapM_first_error {A B : Type} (f : A -> result B) (x : A) (e : exn) :
  forall before after : list A,
  (forall a, In a before -> exists y, f a = Ok y) ->
  f x = Raise e ->
  mapM f (before ++ x :: after) = Raise e.
Proof.
  induction before as [|a before IH]; intros after Hb Hx.
  - cbn [app mapM]. rewrite Hx. reflexivity.
  - destruct (Hb a (or_introl eq_refl)) as [y Hy].
    cbn [app mapM]. rewrite Hy. cbn [bind].
    rewrite (IH after (fun a' Ha => Hb a' (or_intror Ha)) Hx). reflexivity.
Qed.

Section LoadFacts.
Variables FileData Picture Sample : Type.
Variable Image_open_convert : FileData -> result Picture.
Variable transform : Z * Z -> Picture -> Sample.

Lemma length_image_files (path : string) (at_path : option (list (node FileData))) :
  List.length (image_files path at_path) = matching_files at_path.
Proof.
  destruct at_path as [entries|]; [|reflexivity].
  unfold image_files, os_walk, matching_files. apply length_walk_dir.
Qed.

(** When every file with a matching name can be opened, [load_images]
    returns one sample per matching file, in the order of the walk, each
    the transform of the opened picture; files with other names are never
    opened, readable or not. *)
Theorem load_images_all_readable (path stage : string) (size : Z * Z)
  (at_path : option (list (node FileData))) :
  (forall p c, In (p, c) (image_files path at_path) ->
               exists pic, Image_open_convert c = Ok pic) ->
  exists ds,
    IJEPADataset_init Image_open_convert transform path stage size at_path
      = Ok ds /\
    load_images Image_open_convert transform path size at_path
      = Ok (data ds) /\
    IJEPADataset_len ds = Z.of_nat (matching_files at_path) /\
    forall i p c, nth_error (image_files path at_path) i = Some (p, c) ->
      exists pic, Image_open_convert c = Ok pic /\
                  nth_error (data ds) i = Some (transform size pic).
Proof.
  intros H.
  destruct (@mapM_all_ok _ _
              (fun pc => bind (Image_open_convert (snd pc))
                              (fun img => Ok (transform size img)))
              (image_files path at_path)) as (ys & E & Hl & Hn).
  { intros [p c] Hin. destruct (H p c Hin) as [pic Hp]. cbn [snd].
    rewrite Hp. eexists. reflexivity. }
  exists {| dataset_path := path; img_size := size; data := ys |}.
  unfold IJEPADataset_init, load_images. rewrite E. cbn [bind data].
  split; [reflexivity|]. split; [reflexivity|]. split.
  - unfold IJEPADataset_len. cbn [data]. rewrite Hl, length_image_files.
    reflexivity.
  - intros i p c Hi. destruct (Hn i (p, c) Hi) as (y & Hy & Hys).
    cbn [snd] in Hy. destruct (Image_open_convert c) as [pic|e];
      [|discriminate].
    exists pic. split; [reflexivity|]. cbn [bind] in Hy. injection Hy as <-.
    exact Hys.
Qed.

(** The first matching file, in walk order, that cannot be opened decides
    the outcome: [load_images] and the constructor raise its exception,
    whatever comes after it, and so does [setup] when the file is under
    the training path. *)
Theorem load_images_first_unreadable (path stage : string) (size : Z * Z)
  (at_path : option (list (node FileData)))
  (before after : list (string * FileData)) (p : string) (c : FileData)
  (e : exn) :
  image_files path at_path = (before ++ (p, c) :: after)%list ->
  (forall q d, In (q, d) before -> exists pic, Image_open_convert d = Ok pic) ->
  Image_open_convert c = Raise e ->
  load_images Image_open_convert transform path size at_path = Raise e /\
  IJEPADataset_init Image_open_convert transform path stage size at_path
    = Raise e /\
  forall (self : D2VDataModule Sample) (fs : string -> option (list (node FileData))),
    train_dataset_path self = path -> fs path = at_path ->
    setup Image_open_convert transform self fs = Raise e.
Proof.
  intros Hsplit Hb Hc.
  assert (E : forall sz,
             load_images Image_open_convert transform path sz at_path
             = Raise e).
  { intros sz. unfold load_images. rewrite Hsplit. apply mapM_first_error.
    - intros [q d] Hin. destruct (Hb q d Hin) as [pic Hp]. cbn [snd].
      rewrite Hp. eexists. reflexivity.
    - cbn [snd]. rewrite Hc. reflexivity. }
  split; [apply E|].
  split; [unfold IJEPADataset_init; rewrite E; reflexivity|].
  intros self fs Hp Hfs. unfold setup, IJEPADataset_init.
  rewrite Hp, Hfs, E. reflexivity.
Qed.

End LoadFacts.

Lemma load_images_all_readable_witness :
  exists ds,
    IJEPADataset_init Demo.open_convert Demo.transform "data" "train"
      (224, 224)%Z (Some Demo.tree) = Ok ds /\
    IJEPADataset_len ds = 3%Z.
Proof.
  destruct (@load_images_all_readable _ _ _ Demo.open_convert Demo.transform
              "data"%string "train"%string (224, 224)%Z (Some Demo.tree))
    as (ds & E & _ & Hl & _).
  - intros p c Hin. cbn in Hin.
    repeat (destruct Hin as [Hin|Hin];
            [injection Hin as _ <-; eexists; reflexivity|]).
    destruct Hin.
  - exists ds. split; [exact E|exact Hl].
Defined.

Lemma load_images_first_unreadable_witness :
  load_images Demo.open_convert Demo.transform "data" (224, 224)%Z
    (Some Demo.broken) = Raise UnidentifiedImageError /\
  setup Demo.open_convert Demo.transform
    (D2VDataModule_init _ "data" "val" 16 4 true true)
    (fun _ => Some Demo.broken) = Raise UnidentifiedImageError.
Proof.
  destruct (@load_images_first_unreadable _ _ (Z * Z * nat)%type
              Demo.open_convert Demo.transform
              "data"%string "train"%string (224, 224)%Z (Some Demo.broken)
              [("data/a.jpeg"%string, Some 1%nat)]
              [("data/sub/c.jpeg"%string, Some 3%nat)]
              "data/sub/bad.JPEG"%string None UnidentifiedImageError)
    as (E & _ & Hs).
  - reflexivity.
  - intros q d [Hin|[]]. injection Hin as _ <-. eexists. reflexivity.
  - reflexivity.
  - split; [exact E|]. apply Hs; reflexivity.
Defined.

(** *** Indexing a dataset *)

Section IndexFacts.
Variable Sample : Type.

(** [__getitem__] follows Python's list indexing: indices 0 .. len-1
    count from the front, -len .. -1 from the back (index -k is the item
    at len-k), and every other index raises [IndexError]. *)
Theorem getitem_bounds (ds : IJEPADataset Sample) (index : Z) :
  let n := IJEPADataset_len ds in
  ((0 <= index < n)%Z ->
     exists x, IJEPADataset_getitem ds index = Ok x /\
               nth_error (data ds) (Z.to_nat index) = Some x) /\
  ((- n <= index < 0)%Z ->
     exists x, IJEPADataset_getitem ds index = Ok x /\
               nth_error (data ds) (Z.to_nat (index + n)) = Some x /\
               IJEPADataset_getitem ds (index + n) = Ok x) /\
  ((index < - n \/ n <= index)%Z ->
     IJEPADataset_getitem ds index = Raise IndexError).
Proof.
  assert (Hfront : forall i, (0 <= i < IJEPADataset_len ds)%Z ->
            exists x, IJEPADataset_getitem ds i = Ok x /\
                      nth_error (data ds) (Z.to_nat i) = Some x).
  { intros i Hi. unfold IJEPADataset_getitem.
    destruct (Z.ltb_spec i 0) as [|_]; [lia|].
    destruct (Z.ltb_spec i 0) as [|_]; [lia|].
    destruct (nth_error (data ds) (Z.to_nat i)) as [x|] eqn:E.
    - exists x. auto.
    - apply nth_error_None in E. unfold IJEPADataset_len in Hi. lia. }
  cbv zeta. split; [apply Hfront|]. split.
  - intros Hi. destruct (Hfront (index + IJEPADataset_len ds)%Z) as (x & E & Hn);
      [lia|].
    exists x. split; [|split; assumption].
    rewrite <- E. unfold IJEPADataset_getitem.
    assert (H1 : (index <? 0)%Z = true) by (apply Z.ltb_lt; lia).
    assert (H2 : (index + IJEPADataset_len ds <? 0)%Z = false)
      by (apply Z.ltb_ge; lia).
    rewrite H1, !H2. reflexivity.
  - intros Hi. unfold IJEPADataset_getitem.
    destruct (Z.ltb_spec index 0) as [Hneg|Hpos].
    + destruct (Z.ltb_spec (index + IJEPADataset_len ds) 0) as [|]; [reflexivity|].
      destruct Hi as [Hi|Hi]; [lia|].
      unfold IJEPADataset_len in *. lia.
    + destruct (Z.ltb_spec index 0) as [|_]; [lia|].
      destruct Hi as [Hi|Hi]; [unfold IJEPADataset_len in *; lia|].
      destruct (nth_error (data ds) (Z.to_nat index)) as [x|] eqn:E;
        [|reflexivity].
      assert (Hsome : nth_error (data ds) (Z.to_nat index) <> None) by congruence.
      apply nth_error_Some in Hsome. unfold IJEPADataset_len in Hi. lia.
Qed.

End IndexFacts.

Lemma getitem_bounds_witness :
  IJEPADataset_getitem
    {| dataset_path := "d"; img_size := (224, 224)%Z; data := [10; 20; 30]%Z |}
    (-1) = Ok 30%Z /\
  IJEPADataset_getitem
    {| dataset_path := "d"; img_size := (224, 224)%Z; data := [10; 20; 30]%Z |}
    3 = Raise IndexError.
Proof.
  pose (ds := {| dataset_path := "d"%string; img_size := (224, 224)%Z;
                 data := [10; 20; 30]%Z |}).
  destruct (getitem_bounds ds (-1)) as (_ & Hback & _).
  destruct (getitem_bounds ds 3) as (_ & _ & Hout).
  destruct Hback as (x & E & Hn & _); [cbn; lia|].
  split.
  - fold ds. rewrite E. cbn in Hn. injection Hn as <-. reflexivity.
  - apply Hout. right. cbn. lia.
Defined.

(** *** Names, extensions and paths *)

(** Only the last five characters of a name decide: a name whose
    extension has five characters or more matches exactly when the
    extension alone does, whatever the stem; and a shorter extension that
    is not a tail of ".jpeg", such as ".jpg" or ".png" in any letter
    case, never matches. *)
Theorem is_jpeg_by_extension (stem ext : string) :
  ((5 <= String.length ext)%nat -> is_jpeg (stem ++ ext) = is_jpeg ext) /\
  ((String.length ext < 5)%nat ->
   Str.endswith ".jpeg" (Str.lower ext) = false ->
   is_jpeg (stem ++ ext) = false) /\
  is_jpeg (stem ++ ".jpeg") = true /\
  is_jpeg (stem ++ ".JPEG") = true /\
  is_jpeg (stem ++ ".jpg") = false /\
  is_jpeg (stem ++ ".JPG") = false /\
  is_jpeg (stem ++ ".png") = false.
Proof.
  assert (Hlong : forall e, (5 <= String.length e)%nat ->
                            is_jpeg (stem ++ e) = is_jpeg e).
  { intros e He. unfold is_jpeg. rewrite lower_app.
    apply endswith_long_tail. rewrite length_lower. exact He. }
  assert (Hshort : forall e, (String.length e < 5)%nat ->
                             Str.endswith ".jpeg" (Str.lower e) = false ->
                             is_jpeg (stem ++ e) = false).
  { intros e He Hno. unfold is_jpeg. rewrite lower_app.
    destruct (Str.endswith (Str.lower stem ++ Str.lower e) ".jpeg") eqn:E;
      [|reflexivity].
    apply endswith_short_tail in E; [congruence|].
    rewrite length_lower. exact He. }
  split; [apply Hlong|]. split; [apply Hshort|].
  split; [rewrite Hlong by (cbn; lia); reflexivity|].
  split; [rewrite Hlong by (cbn; lia); reflexivity|].
  split; [apply Hshort; [cbn; lia|reflexivity]|].
  split; [apply Hshort; [cbn; lia|reflexivity]|].
  apply Hshort; [cbn; lia|reflexivity].
Qed.

Lemma is_jpeg_by_extension_witness :
  (5 <= String.length ".jpeg.bak")%nat /\
  is_jpeg ("photo" ++ ".jpeg.bak") = false /\
  (String.length ".gif" < 5)%nat /\
  is_jpeg ("photo" ++ ".gif") = false.
Proof.
  destruct (is_jpeg_by_extension "photo" ".jpeg.bak") as (Hlong & _).
  destruct (is_jpeg_by_extension "photo" ".gif") as (_ & Hshort & _).
  assert (H1 : (5 <= String.length ".jpeg.bak")%nat) by (cbn; lia).
  assert (H2 : (String.length ".gif" < 5)%nat) by (cbn; lia).
  split; [exact H1|]. split; [rewrite (Hlong H1); reflexivity|].
  split; [exact H2|]. apply (Hshort H2). reflexivity.
Defined.

Lemma prefix_app (a b : string) : String.prefix a (a ++ b) = true.
Proof.
  induction a as [|x a IH]; cbn; [destruct b; reflexivity|].
  destruct (ascii_dec x x) as [_|N]; [exact IH|contradiction].
Qed.

Lemma prefix_spec (a s : string) :
  String.prefix a s = true <-> exists r, s = (a ++ r)%string.
Proof.
  split.
  - revert s. induction a as [|x a IH]; intros s H.
    + exists s. reflexivity.
    + destruct s as [|y s]; [discriminate|]. cbn in H.
      destruct (ascii_dec x y) as [->|]; [|discriminate].
      destruct (IH s H) as [r ->]. exists r. reflexivity.
  - intros [r ->]. apply prefix_app.
Qed.

Lemma join_relative (a b : string) :
  relative b = true -> exists sep, Str.join a b = (a ++ sep ++ b)%string.
Proof.
  unfold relative, Str.join. intros H. apply negb_true_iff in H. rewrite H.
  destruct (_ || _)%bool; [exists ""%string|exists "/"%string]; reflexivity.
Qed.

Lemma join_tail (a b : string) : exists pre, Str.join a b = (pre ++ b)%string.
Proof.
  unfold Str.join. destruct (Str.startswith b "/").
  - exists ""%string. reflexivity.
  - destruct (_ || _)%bool; [exists a; reflexivity|].
    exists (a ++ "/")%string. rewrite str_app_assoc. reflexivity.
Qed.

Section PathFacts.
Variable FileData : Type.

Lemma names_relative_in (entries : list (node FileData)) (n : node FileData) :
  forallb (@names_relative FileData) entries = true ->
  In n entries -> names_relative n = true.
Proof. intros H Hin. rewrite forallb_forall in H. apply H. exact Hin. Qed.

Lemma file_under_tail (top : string) (entries : list (node FileData)) p name c :
  file_under top entries p name c -> exists pre, p = (pre ++ name)%string.
Proof.
  induction 1 as [top entries name c _|top entries d es p name c _ _ IH].
  - apply join_tail.
  - exact IH.
Qed.

Lemma file_under_prefix (top : string) (entries : list (node FileData)) p name c :
  file_under top entries p name c ->
  forallb (@names_relative FileData) entries = true ->
  String.prefix top p = true.
Proof.
  induction 1 as [top entries name c Hin|top entries d es p name c Hin _ IH];
    intros Hrel.
  - pose proof (names_relative_in _ _ Hrel Hin) as Hn. cbn in Hn.
    destruct (join_relative top _ Hn) as [sep ->]. apply prefix_app.
  - pose proof (names_relative_in _ _ Hrel Hin) as Hn. cbn in Hn.
    apply andb_true_iff in Hn. destruct Hn as [Hd Hes].
    specialize (IH Hes). apply prefix_spec in IH. destruct IH as [r ->].
    destruct (join_relative top _ Hd) as [sep ->].
    rewrite !str_app_assoc. apply prefix_app.
Qed.

(** Every path that [load_images] collects passes the extension test
    itself, and, when no entry name begins with the separator (as in any
    directory listing), begins with the root path it was asked to walk. *)
Theorem image_files_paths (path : string) (entries : list (node FileData))
  (p : string) (c : FileData) :
  In (p, c) (image_files path (Some entries)) ->
  is_jpeg p = true /\
  (forallb (@names_relative FileData) entries = true ->
   Str.startswith p path = true).
Proof.
  intros Hin. unfold image_files, os_walk in Hin. apply in_walk_dir in Hin.
  destruct Hin as (name & Hu & Hj). split.
  - destruct (file_under_tail Hu) as [pre ->]. unfold is_jpeg in *.
    rewrite lower_app. apply endswith_app_r. exact Hj.
  - intros Hrel. unfold Str.startswith. eapply file_under_prefix; eauto.
Qed.

End PathFacts.

Lemma image_files_paths_witness :
  forallb (@names_relative (option nat)) Demo.tree = true /\
  is_jpeg "data/cats/deep/D.JpEg" = true /\
  Str.startswith "data/cats/deep/D.JpEg" "data" = true.
Proof.
  assert (Hrel : forallb (@names_relative (option nat)) Demo.tree = true)
    by reflexivity.
  split; [exact Hrel|].
  destruct (@image_files_paths (option nat) "data" Demo.tree
              "data/cats/deep/D.JpEg" (Some 4%nat)) as [Hj Hp].
  - cbn. right. right. left. reflexivity.
  - split; [exact Hj|exact (Hp Hrel)].
Defined.

(** The update keeps what the next update needs: it succeeds on matching
    encoders and leaves matching encoders, with the student parameters as
    they were and every teacher tensor of the shape it had. It switches
    both encoders to eval mode and touches no other attribute of the
    module. *)
Theorem update_momentum_frame (self : IJEPA.t) (m : Q) :
  encoders_match (IJEPA.model self) = true ->
  exists self',
    update_momentum self m = Ok self' /\
    encoders_match (IJEPA.model self') = true /\
    map (@List.length Q) (parameters (teacher_encoder (IJEPA.model self'))) =
      map (@List.length Q) (parameters (teacher_encoder (IJEPA.model self))) /\
    parameters (student_encoder (IJEPA.model self')) =
      parameters (student_encoder (IJEPA.model self)) /\
    training (student_encoder (IJEPA.model self')) = false /\
    training (teacher_encoder (IJEPA.model self')) = false /\
    mode (IJEPA.model self') = mode (IJEPA.model self) /\
    self' = IJEPA.set_model self (IJEPA.model self').
Proof.
  intros H. unfold encoders_match in H.
  destruct (momentum_loop_elements m _ _ H) as (ts' & E & _).
  eexists. split; [apply update_momentum_run; exact E|].
  pose proof (momentum_loop_shapes _ _ _ E) as Hsh.
  unfold encoders_match. cbn.
  split; [rewrite (shapes_match_lengths _ _ _ Hsh); exact H|].
  split; [exact Hsh|]. repeat split.
Qed.

Lemma update_momentum_frame_witness :
  encoders_match (IJEPA.model Demo.self0) = true /\
  exists self',
    update_momentum Demo.self0 (1 # 2) = Ok self' /\
    training (student_encoder (IJEPA.model self')) = false.
Proof.
  split; [reflexivity|].
  destruct (update_momentum_frame Demo.self0 (1 # 2) eq_refl)
    as (self' & E & _ & _ & _ & Ht & _).
  exists self'. split; [exact E|exact Ht].
Defined.

(** The zip of the two parameter lists ends with the shorter one: a
    teacher tensor that has no student tensor at its position is left
    exactly as it was, and the teacher keeps its number of tensors. *)
Theorem update_momentum_unpaired (self : IJEPA.t) (m : Q) :
  encoders_match (IJEPA.model self) = true ->
  exists self',
    update_momentum self m = Ok self' /\
    List.length (parameters (teacher_encoder (IJEPA.model self'))) =
      List.length (parameters (teacher_encoder (IJEPA.model self))) /\
    forall i,
      (List.length (parameters (student_encoder (IJEPA.model self))) <= i)%nat ->
      nth_error (parameters (teacher_encoder (IJEPA.model self'))) i =
      nth_error (parameters (teacher_encoder (IJEPA.model self))) i.
Proof.
  intros H. unfold encoders_match in H.
  destruct (momentum_loop_elements m _ _ H) as (ts' & E & Hl & Hrest & _).
  eexists. split; [apply update_momentum_run; exact E|]. cbn.
  split; [exact Hl|exact Hrest].
Qed.

Lemma update_momentum_unpaired_witness :
  exists self',
    update_momentum
      (IJEPA.set_model Demo.self0
         {| student_encoder := {| parameters := [[1; 2]]; training := true |};
            teacher_encoder := teacher_encoder Demo.net0;
            mode := "train" |}) (1 # 2) = Ok self' /\
    nth_error (parameters (teacher_encoder (IJEPA.model self'))) 1 = Some [1].
Proof.
  destruct (@update_momentum_unpaired
              (IJEPA.set_model Demo.self0
                 {| student_encoder :=
                      {| parameters := [[1; 2]]; training := true |};
                    teacher_encoder := teacher_encoder Demo.net0;
                    mode := "train" |}) (1 # 2) eq_refl)
    as (self' & E & _ & Hrest).
  exists self'. split; [exact E|].
  rewrite (Hrest 1%nat); [reflexivity|cbn; lia].
Defined.

(** *** More on the schedule of m *)

(** A trainer that plans zero steps makes the increment of m a division
    by zero: [on_after_backward] raises ZeroDivisionError, on its first
    call and hence on every run of calls. *)
Theorem on_after_backward_zero_steps (self : IJEPA.t) (n : nat) :
  encoders_match (IJEPA.model self) = true ->
  IJEPA.trainer self = Some {| estimated_stepping_batches := 0 |} ->
  on_after_backward self = Raise ZeroDivisionError /\
  on_after_backward_times (S n) self = Raise ZeroDivisionError.
Proof.
  intros Hm Htr. unfold encoders_match in Hm.
  destruct (momentum_loop_elements (IJEPA.m self) _ _ Hm) as (ts' & E & _).
  assert (H1 : on_after_backward self = Raise ZeroDivisionError).
  { unfold on_after_backward. rewrite (update_momentum_run self _ E).
    cbn [bind IJEPA.set_model IJEPA.trainer]. rewrite Htr. reflexivity. }
  split; [exact H1|]. cbn [on_after_backward_times]. rewrite H1. reflexivity.
Qed.

Lemma on_after_backward_zero_steps_witness :
  on_after_backward
    (IJEPA.set_trainer Demo.self0 (Some {| estimated_stepping_batches := 0 |}))
  = Raise ZeroDivisionError.
Proof.
  apply (@on_after_backward_zero_steps
           (IJEPA.set_trainer Demo.self0
              (Some {| estimated_stepping_batches := 0 |})) 0%nat
           eq_refl eq_refl).
Defined.

(** *** Steps after a prediction *)

Section ModeFacts.
Variable Gen : Type.
Variable uniform : Q -> Q -> Gen -> Q * Gen.
Variables Batch Output : Type.
Variable network :
  IJEPA_base -> Batch -> Q -> Q -> Q -> Q -> Gen -> result (Output * Gen).
Variable unpack2 : Output -> result (Tensor * Tensor).
Variable criterion : Tensor -> Tensor -> Q.

(** The mode that [predict_step] sets is not set back: the module it
    returns differs from the one it got in the network's [mode] only, a
    second [predict_step] returns that same module again, and a later
    [training_step] or [validation_step] calls the network in mode
    "test". *)
Theorem predict_step_mode_stays (self self' : IJEPA.t) (batch batch2 : Batch)
  (batch_idx dataloader_idx idx2 : Z) (g g' g2 : Gen) (out : Output) :
  predict_step uniform network self batch batch_idx dataloader_idx g
    = Ok (out, self', g') ->
  self' = IJEPA.set_model self (set_mode (IJEPA.model self) "test") /\
  (forall out2 self2 g3,
      predict_step uniform network self' batch2 idx2 dataloader_idx g2
        = Ok (out2, self2, g3) -> self2 = self') /\
  let d1 := uniform (fst (IJEPA.target_aspect_ratio self))
                    (snd (IJEPA.target_aspect_ratio self)) g2 in
  let d2 := uniform (fst (IJEPA.target_scale self))
                    (snd (IJEPA.target_scale self)) (snd d1) in
  let d3 := uniform (fst (IJEPA.context_scale self))
                    (snd (IJEPA.context_scale self)) (snd d2) in
  let call := network (set_mode (IJEPA.model self) "test") batch2
                (fst d1) (fst d2) (IJEPA.context_aspect_ratio self)
                (fst d3) (snd d3) in
  training_step uniform network unpack2 criterion self' batch2 idx2 g2 =
    bind call
      (fun og =>
         bind (unpack2 (fst og))
           (fun ys =>
              Ok (criterion (fst ys) (snd ys),
                  IJEPA.log self' "train_loss" (criterion (fst ys) (snd ys)),
                  snd og))) /\
  validation_step uniform network unpack2 criterion self' batch2 idx2 g2 =
    bind call
      (fun og =>
         bind (unpack2 (fst og))
           (fun ys =>
              Ok (criterion (fst ys) (snd ys),
                  IJEPA.log self' "val_loss" (criterion (fst ys) (snd ys)),
                  snd og))).
Proof.
  intros Hp.
  assert (Hs : self' = IJEPA.set_model self (set_mode (IJEPA.model self) "test")).
  { revert Hp. unfold predict_step, forward.
    destruct (uniform _ _ g) as [a ga]. destruct (uniform _ _ ga) as [b gb].
    destruct (network _ _ _ _ _ _ _) as [[o g3]|e]; [|discriminate].
    cbn [bind fst snd]. intros H. injection H as _ <- _. reflexivity. }
  split; [exact Hs|]. subst self'. split.
  - intros out2 self2 g3. unfold predict_step, forward.
    cbn [IJEPA.set_model IJEPA.model IJEPA.target_aspect_ratio
         IJEPA.target_scale IJEPA.context_aspect_ratio set_mode
         student_encoder teacher_encoder mode].
    destruct (uniform _ _ g2) as [a ga]. destruct (uniform _ _ ga) as [b gb].
    destruct (network _ _ _ _ _ _ _) as [[o g4]|e]; [|discriminate].
    cbn [bind fst snd]. intros H. injection H as _ <- _. reflexivity.
  - cbv zeta. unfold training_step, validation_step, forward.
    cbn [IJEPA.set_model IJEPA.model IJEPA.target_aspect_ratio
         IJEPA.target_scale IJEPA.context_aspect_ratio IJEPA.context_scale].
    destruct (uniform _ _ g2) as [a ga]. cbn [fst snd].
    destruct (uniform _ _ ga) as [b gb]. cbn [fst snd].
    destruct (uniform _ _ gb) as [c gc]. cbn [fst snd].
    split; reflexivity.
Qed.

End ModeFacts.

Lemma predict_step_mode_stays_witness :
  exists out self' g',
    predict_step Demo.uniform Demo.network Demo.self0 Demo.batch0 0 0
      (7%Z, 0%nat) = Ok (out, self', g') /\
    mode (IJEPA.model self') = "test"%string /\
    training_step Demo.uniform Demo.network Demo.unpack2 Demo.criterion
      self' Demo.batch0 1 g' = Raise ValueError.
Proof.
  destruct (predict_step Demo.uniform Demo.network Demo.self0 Demo.batch0 0 0
              (7%Z, 0%nat)) as [[[out self'] g']|e] eqn:Hp;
    [|vm_compute in Hp; discriminate].
  exists out, self', g'. split; [reflexivity|].
  destruct (@predict_step_mode_stays _ Demo.uniform _ _ Demo.network
              Demo.unpack2 Demo.criterion Demo.self0 self' Demo.batch0
              Demo.batch0 0 0 1 (7%Z, 0%nat) g' g' out Hp)
    as (Hs & _ & Ht & _).
  split; [rewrite Hs; reflexivity|].
  rewrite Ht. vm_compute in Hp. injection Hp as _ _ <-. reflexivity.
Defined.

(** *** Construction *)

Section InitFacts.
Variable IJEPA_base_new : Z -> Z -> Z -> Z -> Z -> Z -> Z -> Z -> result IJEPA_base.

(** The stored token count is never negative. For a positive patch size
    and a non-negative image size the grid of whole patches fits in the
    image, num_tokens * patch_size^2 <= img_size^2, one more patch per
    side would not fit, and the count is 0 exactly when the image is
    smaller than one patch. *)
Theorem num_tokens_bounds (hp : Hparams.t) (self : IJEPA.t) :
  IJEPA_init IJEPA_base_new hp = Ok self ->
  let img := Hparams.img_size hp in
  let patch := Hparams.patch_size hp in
  (0 <= IJEPA.num_tokens self)%Z /\
  ((0 < patch)%Z -> (0 <= img)%Z ->
   (IJEPA.num_tokens self * patch ^ 2 <= img ^ 2)%Z /\
   (img ^ 2 < (img / patch + 1) ^ 2 * patch ^ 2)%Z /\
   (IJEPA.num_tokens self = 0%Z <-> (img < patch)%Z)).
Proof.
  intros H img patch. unfold IJEPA_init in H.
  destruct (IJEPA_base_new _ _ _ _ _ _ _ _) as [net|e]; [|discriminate].
  cbn [bind] in H. unfold floordiv in H. fold img patch in H.
  destruct (patch =? 0)%Z; [discriminate|]. cbn [bind] in H.
  injection H as <-.
  change (IJEPA.num_tokens _) with ((img / patch) ^ 2)%Z.
  rewrite !Z.pow_2_r. split; [nia|].
  intros Hp Hi.
  pose proof (Z.mul_div_le img patch Hp) as Hlo.
  pose proof (Z.mul_succ_div_gt img patch Hp) as Hhi.
  assert (Hg : (0 <= img / patch)%Z) by (apply Z.div_pos; lia).
  split; [nia|]. split; [nia|]. split.
  - intros Hz. assert (img / patch = 0)%Z by nia. nia.
  - intros Hlt. rewrite Z.div_small by lia. reflexivity.
Qed.

End InitFacts.

Lemma num_tokens_bounds_witness :
  exists self,
    IJEPA_init Demo.IJEPA_base_new Demo.hparams_225 = Ok self /\
    (IJEPA.num_tokens self * 16 ^ 2 <= 225 ^ 2)%Z /\
    (225 ^ 2 < (225 / 16 + 1) ^ 2 * 16 ^ 2)%Z.
Proof.
  destruct (IJEPA_init Demo.IJEPA_base_new Demo.hparams_225) as [self|e] eqn:E;
    [|discriminate].
  destruct (@num_tokens_bounds Demo.IJEPA_base_new Demo.hparams_225 self E)
    as (_ & Hb).
  destruct Hb as (Hlo & Hhi & _); [reflexivity|discriminate|].
  exists self. split; [reflexivity|]. split; [exact Hlo|exact Hhi].
Defined.
